(** * The site service of the multi-site CMS: include/service/entities/site_service.js

    A shallow embedding of [SiteService] and the properties of its
    registry, its activation protocol and its command handlers.

    The service is callback driven and single threaded: every operation
    below is a function from the state of the process (the [World]) to
    what its callback received together with the state it leaves. *)

From Stdlib Require Import ZArith String Ascii List Bool Permutation DecimalString.
From Stdlib Require Import Floats.SpecFloat.
From stdpp Require Import base gmap strings list.

Local Open Scope string_scope.
Local Open Scope list_scope.

(** ** JavaScript values *)

Module Js.

(** The values a caller can hand over where the service expects a site
    identifier. Numbers are IEEE doubles ([spec_float]); objects and
    functions are known by their reference only. *)
Inductive Val : Type :=
| Undefined
| Null
| Bool (b : bool)
| Num (x : spec_float)
| Str (s : string)
| Obj (ref : nat).

(** ToBoolean: what [!v] and [if (v)] look at. *)
Definition truthy (v : Val) : bool :=
  match v with
  | Undefined | Null => false
  | Bool b => b
  | Num (S754_zero _) | Num S754_nan => false
  | Num _ => true
  | Str s => negb (String.eqb s "")
  | Obj _ => true
  end.

(** The strict equality [a === b]: no conversion; NaN differs from
    itself, the two zeros are equal, objects are compared by reference. *)
Definition strict_eq (a b : Val) : bool :=
  match a, b with
  | Undefined, Undefined => true
  | Null, Null => true
  | Bool x, Bool y => Bool.eqb x y
  | Num x, Num y => SFeqb x y
  | Str x, Str y => String.eqb x y
  | Obj x, Obj y => Nat.eqb x y
  | _, _ => false
  end.

(** The errors the service builds or meets, by constructor name. *)
Inductive Error : Type :=
| Err (msg : string)
| ReferenceError (msg : string)
| TypeError (msg : string).

Definition name_of (e : Error) : string :=
  match e with
  | Err _ => "Error"
  | ReferenceError _ => "ReferenceError"
  | TypeError _ => "TypeError"
  end.

Definition message (e : Error) : string :=
  match e with Err m | ReferenceError m | TypeError m => m end.

(** [e.stack]: its first line, the frames under it are not modelled. *)
Definition stack (e : Error) : string := name_of e +:+ ": " +:+ message e.

(** What the platform does with the case of letters.
    [toLowerCase s] is [String.prototype.toLowerCase] of the engine, and
    [test_anchored_i lit s] is the test of the string [s] against the
    expression /^lit$/i, the characters of [lit] standing for
    themselves. Both rest on the case tables of Unicode, which are no
    part of the sources: the two operations are parameters of the
    model. What they do on printable ASCII is known, and stated where
    a property needs it. *)
Record Casing : Type := mkCasing {
  toLowerCase : string -> string;
  test_anchored_i : string -> string -> bool
}.

End Js.

Import Js.

Definition spec_float_eq_dec (x y : spec_float) : {x = y} + {x <> y}.
Proof. decide equality; first [apply Bool.bool_dec | apply Z.eq_dec | apply Pos.eq_dec]. Defined.

#[global] Instance Val_eq_dec : EqDecision Val.
Proof.
  intros a b. unfold Decision.
  decide equality;
    first [apply Bool.bool_dec | apply String.string_dec | apply Nat.eq_dec | apply spec_float_eq_dec].
Defined.

#[global] Instance Error_eq_dec : EqDecision Error.
Proof. intros a b. unfold Decision. decide equality; apply String.string_dec. Defined.

(** ** Site identifiers: [isGlobal], [areEqual], [getCurrentSite] *)

Definition GLOBAL_SITE : string := "global".
Definition NO_SITE : string := "no-site".
Definition SITE_FIELD : string := "site".
Definition SITE_COLLECTION : string := "site".
Definition SITE_COLL : string := SITE_COLLECTION.

(** [return (!siteid || siteid === SiteService.GLOBAL_SITE)] *)
Definition isGlobal (siteid : Val) : bool :=
  negb (truthy siteid) || strict_eq siteid (Str GLOBAL_SITE).

(** [if (isGlobal(siteA) && isGlobal(siteB)) return true; return siteA === siteB] *)
Definition areEqual (siteA siteB : Val) : bool :=
  if isGlobal siteA && isGlobal siteB then true else strict_eq siteA siteB.

(** [return !actual || SiteService.areEqual(actual, expected)] *)
Definition isNotSetOrEqual (actual expected : Val) : bool :=
  negb (truthy actual) || areEqual actual expected.

(** [return siteid || SiteService.GLOBAL_SITE] *)
Definition getCurrentSite (siteid : Val) : Val :=
  if truthy siteid then siteid else Str GLOBAL_SITE.



(** ** Data model *)

(** A site document, as the service reads and writes it. A document
    that was never saved has no [_id]. *)
Record Site : Type := mkSite {
  _id : option string;
  uid : string;
  displayName : string;
  hostname : string;
  active : bool
}.

#[global] Instance Site_eq_dec : EqDecision Site.
Proof. solve_decision. Defined.

Definition set_active (b : bool) (s : Site) : Site :=
  mkSite (_id s) (uid s) (displayName s) (hostname s) b.
Definition set_uid (u : string) (s : Site) : Site :=
  mkSite (_id s) u (displayName s) (hostname s) (active s).
Definition set_id (i : string) (s : Site) : Site :=
  mkSite (Some i) (uid s) (displayName s) (hostname s) (active s).

(** What [getByUid] hands out for the global site: three fields only. *)
Record GlobalRecord : Type := mkGlobalRecord {
  g_displayName : string;
  g_hostname : string;
  g_uid : string
}.

(** [pb.config], the part the service reads. *)
Record Config : Type := mkConfig {
  siteName : string;
  siteRoot : string;
  multisite_enabled : bool;
  multisite_globalRoot : option string
}.

Inductive JobKind : Type := SiteActivateJob | SiteDeactivateJob.

Record Job : Type := mkJob {
  job_kind : JobKind;
  job_runAsInitiator : bool;
  job_name : string;
  job_id : string;
  job_site : string
}.

(** The wire message between processes, and the answer to it. *)
Record Command : Type := mkCommand {
  cmd_type : string;
  cmd_site : string;
  cmd_jobId : string
}.

Record Response : Type := mkResponse {
  resp_error : option string;
  resp_result : bool
}.

(** The two functions [SiteService.init] can register, by name. *)
Inductive Handler : Type :=
| Ref_onActivateSiteCommandReceived
| Ref_onDeactivateSiteCommandReceived.

(** *** Queries *)

Inductive Field : Type := F_id | F_uid | F_displayName | F_hostname | F_active.

(** Modelled from the spec: the expression
    [new RegExp('^' + util.escapeRegExp(lit) + '$', 'i')]; util.escapeRegExp
    (include/util.js) is missing. Section 4.2: the comparison is anchored
    and ignores case, an exact match and not a substring match. *)
Inductive RegExp : Type := AnchoredIgnoreCase (lit : string).

(** Modelled from the spec: the match of that expression against a
    stored string (section 4.2: exact match ignoring case), as the
    platform decides it. *)
Definition regexp_test (c : Casing) (re : RegExp) (s : string) : bool :=
  match re with
  | AnchoredIgnoreCase lit => test_anchored_i c lit s
  end.

(** The conditions the service puts on a field. [NotId] is what
    [pb.DAO.getNotIDField(id)] builds. *)
Inductive Cond : Type :=
| Is (v : Val)            (* {field: v} *)
| Like (re : RegExp)      (* {field: /re/} *)
| NotId (id : string).    (* pb.DAO.getNotIDField(id) *)

Definition Where : Type := list (Field * Cond).

Definition field_val (s : Site) (f : Field) : Val :=
  match f with
  | F_id => match _id s with Some i => Str i | None => Undefined end
  | F_uid => Str (uid s)
  | F_displayName => Str (displayName s)
  | F_hostname => Str (hostname s)
  | F_active => Bool (active s)
  end.

(** Modelled from the spec: how the missing pb.DAO reads a condition.
    A field is a value, a pattern matches strings only, and section
    4.2: the record with the exclusion id is left out. *)
Definition cond_holds (p : Casing) (c : Cond) (v : Val) : bool :=
  match c with
  | Is w => bool_decide (v = w)
  | Like re => match v with Str s => regexp_test p re s | _ => false end
  | NotId i => negb (bool_decide (v = Str i))
  end.

(** Modelled from the spec: the filter of the missing pb.DAO selects
    the records that meet every condition (section 6). *)
Definition selects (p : Casing) (wh : Where) (s : Site) : bool :=
  forallb (fun fc => cond_holds p (snd fc) (field_val s (fst fc))) wh.

(** The operations the service asks of [pb.DAO]. *)
Inductive DaoOp : Type :=
| OpLoad (coll : string) (wh : Where)
| OpQuery (coll : string) (wh : Where)
| OpCount (coll : string) (wh : Where)
| OpExists (coll : string) (wh : Where)
| OpSave (doc : Site).

Definition is_write (op : DaoOp) : bool :=
  match op with OpSave _ => true | _ => false end.

(** The calls the service makes on [pb.RequestHandler]. *)
Inductive RouteCall : Type :=
| LoadSite (site : Site)
| ActivateSite (site : Site)
| DeactivateSite (site : Site).

(** ** The state of the process *)

Record World : Type := mkWorld {
  config : Config;
  globals : list (string * Val);            (* properties of the global object *)
  sites : list Site;                        (* the 'site' collection *)
  dao_fault : option Error;                 (* the failure the store answers with, if any *)
  dao_log : list DaoOp;                     (* operations sent to the store *)
  route_calls : list RouteCall;             (* calls made on pb.RequestHandler *)
  handlers : list (string * Handler);       (* CommandService registrations *)
  responses : list (Command * Response);    (* sendInResponseTo *)
  broadcasts : list Command;                (* commands sent to the peers *)
  jobs_run : list Job;
  error_log : list string;                  (* pb.log.error *)
  id_counter : nat;
  casing : Casing                           (* the platform's handling of letter case *)
}.

Definition Proc (A : Type) : Type := World -> A * World.

Definition ret {A} (a : A) : Proc A := fun w => (a, w).
Definition bind {A B} (m : Proc A) (k : A -> Proc B) : Proc B :=
  fun w => let (a, w') := m w in k a w'.

Declare Scope proc_scope.
Delimit Scope proc_scope with proc.
Notation "'let*' x ':=' m 'in' k" := (bind m (fun x => k))
  (at level 10, x name, m at level 100, k at level 200) : proc_scope.
Notation "'let*' ' p ':=' m 'in' k" := (bind m (fun p => k))
  (at level 10, p pattern, m at level 100, k at level 200) : proc_scope.
Notation "'do' m 'then' k" := (bind m (fun _ => k))
  (at level 10, m at level 100, k at level 200) : proc_scope.
Local Open Scope proc_scope.

Definition put_sites (l : list Site) : Proc unit := fun w =>
  (tt, mkWorld (config w) (globals w) l (dao_fault w) (dao_log w) (route_calls w)
         (handlers w) (responses w) (broadcasts w) (jobs_run w) (error_log w) (id_counter w) (casing w)).
Definition log_dao (op : DaoOp) : Proc unit := fun w =>
  (tt, mkWorld (config w) (globals w) (sites w) (dao_fault w) (dao_log w ++ [op]) (route_calls w)
         (handlers w) (responses w) (broadcasts w) (jobs_run w) (error_log w) (id_counter w) (casing w)).
Definition route (c : RouteCall) : Proc unit := fun w =>
  (tt, mkWorld (config w) (globals w) (sites w) (dao_fault w) (dao_log w) (route_calls w ++ [c])
         (handlers w) (responses w) (broadcasts w) (jobs_run w) (error_log w) (id_counter w) (casing w)).
Definition add_handler (t : string) (h : Handler) : Proc unit := fun w =>
  (tt, mkWorld (config w) (globals w) (sites w) (dao_fault w) (dao_log w) (route_calls w)
         (handlers w ++ [(t, h)]) (responses w) (broadcasts w) (jobs_run w) (error_log w) (id_counter w) (casing w)).
Definition add_response (c : Command) (r : Response) : Proc unit := fun w =>
  (tt, mkWorld (config w) (globals w) (sites w) (dao_fault w) (dao_log w) (route_calls w)
         (handlers w) (responses w ++ [(c, r)]) (broadcasts w) (jobs_run w) (error_log w) (id_counter w) (casing w)).
Definition add_broadcast (c : Command) : Proc unit := fun w =>
  (tt, mkWorld (config w) (globals w) (sites w) (dao_fault w) (dao_log w) (route_calls w)
         (handlers w) (responses w) (broadcasts w ++ [c]) (jobs_run w) (error_log w) (id_counter w) (casing w)).
Definition add_job (j : Job) : Proc unit := fun w =>
  (tt, mkWorld (config w) (globals w) (sites w) (dao_fault w) (dao_log w) (route_calls w)
         (handlers w) (responses w) (broadcasts w) (jobs_run w ++ [j]) (error_log w) (id_counter w) (casing w)).
Definition log_error (m : string) : Proc unit := fun w =>
  (tt, mkWorld (config w) (globals w) (sites w) (dao_fault w) (dao_log w) (route_calls w)
         (handlers w) (responses w) (broadcasts w) (jobs_run w) (error_log w ++ [m]) (id_counter w) (casing w)).
Definition next_counter : Proc nat := fun w =>
  (id_counter w,
   mkWorld (config w) (globals w) (sites w) (dao_fault w) (dao_log w) (route_calls w)
         (handlers w) (responses w) (broadcasts w) (jobs_run w) (error_log w) (S (id_counter w)) (casing w)).
Definition ask {A} (f : World -> A) : Proc A := fun w => (f w, w).

Fixpoint forEach {A} (l : list A) (f : A -> Proc unit) : Proc unit :=
  match l with
  | [] => ret tt
  | x :: r => do f x then forEach r f
  end.

(** What a node-style callback [cb(err, value)] receives. *)
Inductive Reply (A : Type) : Type :=
| Failed (e : Error)
| Answer (a : A).
Arguments Failed {A} e.
Arguments Answer {A} a.

(** How a function that can raise ends: it called back, or an exception
    left it before it did. *)
Inductive Completion (A : Type) : Type :=
| CalledBack (args : A)
| Threw (e : Error).
Arguments CalledBack {A} args.
Arguments Threw {A} e.

(** ** Collaborators *)

(** *** Persistence: [pb.DAO] *)

(** Modelled from the spec: pb.DAO (include/dao/dao.js) is missing; the
    process holds one collection, 'site'. *)
Definition collection (coll : string) (w : World) : list Site :=
  if String.eqb coll SITE_COLLECTION then sites w else [].

(** Modelled from the spec: a request to the missing pb.DAO. Section
    4.1: a query error is passed on as it is; nothing found is a null or
    empty result and no error. *)
Definition dao_request {A} (op : DaoOp) (answer : World -> A) : Proc (Reply A) :=
  do log_dao op then
  let* fault := ask dao_fault in
  match fault with
  | Some e => ret (Failed e)
  | None => let* a := ask answer in ret (Answer a)
  end.

(** Modelled from the spec: pb.DAO.q (missing). Section 6:
    query(collection, filter) gives the ordered sequence of the
    matching records. *)
Definition dao_q (coll : string) (wh : Where) : Proc (Reply (list Site)) :=
  dao_request (OpQuery coll wh) (fun w => List.filter (selects (casing w) wh) (collection coll w)).

(** Modelled from the spec: pb.DAO.count (missing). Section 6:
    count(collection, filter) gives an integer. *)
Definition dao_count (coll : string) (wh : Where) : Proc (Reply Z) :=
  dao_request (OpCount coll wh)
    (fun w => Z.of_nat (length (List.filter (selects (casing w) wh) (collection coll w)))).

(** Modelled from the spec: pb.DAO.exists (missing). Section 6:
    exists(collection, filter) gives a boolean. *)
Definition dao_exists (coll : string) (wh : Where) : Proc (Reply bool) :=
  dao_request (OpExists coll wh) (fun w => existsb (selects (casing w) wh) (collection coll w)).

(** Modelled from the spec: pb.DAO.loadByValues (missing): the first
    record of the query, null when there is none (section 4.1). *)
Definition dao_loadByValues (wh : Where) (coll : string) : Proc (Reply (option Site)) :=
  dao_request (OpLoad coll wh) (fun w => List.find (selects (casing w) wh) (collection coll w)).

(** Modelled from the spec: pb.DAO.loadByValue (missing), the load by
    one field. *)
Definition dao_loadByValue (key : Field) (val : Val) (coll : string) :
  Proc (Reply (option Site)) :=
  dao_loadByValues [(key, Is val)] coll.

(** Modelled from the spec: the write behind the missing pb.DAO.save.
    The document with id [i] is replaced where it stands; a document the
    collection does not hold is added at the end. *)
Fixpoint store (i : string) (doc : Site) (l : list Site) : list Site :=
  match l with
  | [] => [doc]
  | s :: r => if bool_decide (_id s = Some i) then doc :: r else s :: store i doc r
  end.

Definition decimal (n : nat) : string := NilEmpty.string_of_uint (Nat.to_uint n).

(** Modelled from the spec: pb.DAO.save (missing). Section 6:
    save(record) gives the record with its id; a record without one is
    new and is given a fresh id. *)
Definition dao_save (doc : Site) : Proc (Reply Site) :=
  do log_dao (OpSave doc) then
  let* fault := ask dao_fault in
  match fault with
  | Some e => ret (Failed e)
  | None =>
      let* l := ask sites in
      match _id doc with
      | Some i => do put_sites (store i doc l) then ret (Answer doc)
      | None =>
          let* n := next_counter in
          let doc' := set_id ("oid-" +:+ decimal n) doc in
          do put_sites (l ++ [doc']) then ret (Answer doc')
      end
  end.

(** Modelled from the spec: pb.util.uniqueId (include/util.js) is
    missing. Section 4.1: a freshly generated unique id. *)
Definition uniqueId : Proc string :=
  let* n := next_counter in ret ("uid-" +:+ decimal n).

(** *** Routing Registry: [pb.RequestHandler] *)

(** Modelled from the spec: pb.RequestHandler (include/http/request_handler.js)
    is missing. Sections 2, 3 and 5: an in-memory table from hostname to
    a snapshot of the site configuration, changed only by the load,
    activate and deactivate calls, the last write for a hostname wins. *)
Definition apply_route (t : gmap string Site) (c : RouteCall) : gmap string Site :=
  match c with
  | LoadSite s => <[hostname s := s]> t
  | ActivateSite s => <[hostname s := set_active true s]> t
  | DeactivateSite s => <[hostname s := set_active false s]> t
  end.

(** Modelled from the spec: the table of the missing pb.RequestHandler
    after a sequence of calls, empty at the start of the process. *)
Definition routing_table (calls : list RouteCall) : gmap string Site :=
  foldl apply_route ∅ calls.

(** *** The asynchronous task runner *)

(** [async.series] over an object of tasks (the npm package async):
    the tasks run one after the other in key order, the results object
    holds under each key what the task called back with, and the first
    error ends the run and is handed on with the results so far. *)
Fixpoint async_series {A} (tasks : list (string * Proc (Reply A))) :
  Proc (option Error * list (string * option A)) :=
  match tasks with
  | [] => ret (None, [])
  | (k, t) :: rest =>
      let* r := t in
      match r with
      | Failed e => ret (Some e, [(k, None)])
      | Answer a =>
          let* '(err, results) := async_series rest in
          ret (err, (k, Some a) :: results)
      end
  end.

(** [async.parallel] over an object of tasks: every task is started,
    in key order; the first error is handed on with the results
    gathered when it came. *)
Fixpoint async_parallel {A} (tasks : list (string * Proc (Reply A))) :
  Proc (option Error * list (string * option A)) :=
  match tasks with
  | [] => ret (None, [])
  | (k, t) :: rest =>
      let* r := t in
      let* '(err, results) := async_parallel rest in
      match r with
      | Failed e => ret (Some e, [(k, None)])
      | Answer a => ret (err, (k, Some a) :: results)
      end
  end.

(** *** Jobs: [pb.SiteActivateJob], [pb.SiteDeactivateJob] *)

(** Modelled from the spec: the constructors of pb.SiteActivateJob and
    pb.SiteDeactivateJob (include/service/jobs/sites) are missing.
    Section 3: a job is constructed, initialised with a name and
    optionally with an id given from outside, then run. *)
Definition new_job (k : JobKind) : Job := mkJob k false "" "" "".

(** Modelled from the spec: the missing setter of a job's
    [runAsInitiator] (section 3). *)
Definition setRunAsInitiator (b : bool) (j : Job) : Job :=
  mkJob (job_kind j) b (job_name j) (job_id j) (job_site j).

(** Modelled from the spec: [job.init(name, jobId)] of the missing job
    classes. Section 3: initialised with a name and optionally an
    externally supplied id; without one the job takes a fresh id. *)
Definition job_init (name : string) (jobId : option string) (j : Job) : Proc Job :=
  let* i := match jobId with Some i => ret i | None => uniqueId end in
  ret (mkJob (job_kind j) (job_runAsInitiator j) name i (job_site j)).

(** Modelled from the spec: the missing setter of a job's site
    (section 3). *)
Definition setSite (site : string) (j : Job) : Job :=
  mkJob (job_kind j) (job_runAsInitiator j) (job_name j) (job_id j) site.

(** Modelled from the spec: the missing getter of a job's id
    (section 3). *)
Definition getId (j : Job) : string := job_id j.

(** Modelled from the spec: the type of the command a job of the
    missing classes broadcasts (section 3, Command). *)
Definition command_type (k : JobKind) : string :=
  match k with
  | SiteActivateJob => "activate_site"
  | SiteDeactivateJob => "deactivate_site"
  end.

(** Modelled from the spec: the value of [active] a job of the missing
    classes sets (section 4.3: true to activate, false to deactivate). *)
Definition target_state (k : JobKind) : bool :=
  match k with SiteActivateJob => true | SiteDeactivateJob => false end.

(** Modelled from the spec: [job.run(cb)] of the missing job classes.
    Section 4.3, step 2: the run loads the site record; if it is missing
    it fails with "site not found"; it sets [active], persists, then
    instructs the Routing Registry. Section 2: when the request
    originated locally a command is broadcast to the peers. Section 5:
    the write happens before the registry update. *)
Definition job_run (j : Job) : Proc (option Error * option Site) :=
  do add_job j then
  let* loaded := dao_loadByValue F_uid (Str (job_site j)) SITE_COLLECTION in
  match loaded with
  | Failed e => ret (Some e, None)
  | Answer None => ret (Some (Err "Site not found"), None)
  | Answer (Some site) =>
      let site' := set_active (target_state (job_kind j)) site in
      let* saved := dao_save site' in
      match saved with
      | Failed e => ret (Some e, None)
      | Answer result =>
          do route (match job_kind j with
                    | SiteActivateJob => ActivateSite site'
                    | SiteDeactivateJob => DeactivateSite site'
                    end) then
          do (if job_runAsInitiator j
              then add_broadcast (mkCommand (command_type (job_kind j)) (job_site j) (job_id j))
              else ret tt) then
          ret (None, Some result)
      end
  end.

(** *** Identifier resolution

    The value of an identifier that no enclosing function declares: the
    property of the global object when there is one, a ReferenceError
    when there is none. *)
Definition read_global (x : string) : Proc (Error + Val) := fun w =>
  match List.find (fun p => String.eqb (fst p) x) (globals w) with
  | Some p => (inr (snd p), w)
  | None => (inl (ReferenceError (x +:+ " is not defined")), w)
  end.

(** ** SiteService *)

Inductive SiteResult : Type :=
| GlobalSite (g : GlobalRecord)
| Stored (s : option Site).

Definition getByUid (uid : Val) : Proc (Reply SiteResult) :=
  if negb (truthy uid) || strict_eq uid (Str GLOBAL_SITE) then
    let* c := ask config in
    ret (Answer (GlobalSite (mkGlobalRecord (siteName c) (siteRoot c) GLOBAL_SITE)))
  else
    let where_ := [(F_uid, Is uid)] in
    let* r := dao_loadByValues where_ SITE_COLL in
    ret (match r with Failed e => Failed e | Answer s => Answer (Stored s) end).

Definition getAllSites : Proc (Reply (list Site)) :=
  dao_q SITE_COLL [].

Definition getActiveSites : Proc (Reply (list Site)) :=
  dao_q SITE_COLL [(F_active, Is (Bool true))].

Definition getInactiveSites : Proc (Reply (list Site)) :=
  dao_q SITE_COLL [(F_active, Is (Bool false))].

Definition getSiteMap : Proc (option Error * list (string * option (list Site))) :=
  let tasks := [("active", getActiveSites); ("inactive", getInactiveSites)] in
  async_series tasks.

Definition getSiteNameByUid (uid : Val) : Proc (Reply string) :=
  let* r := dao_q SITE_COLL [(F_uid, Is uid)] in
  let siteName := if negb (truthy uid) || strict_eq uid (Str GLOBAL_SITE) then "global" else "" in
  match r with
  | Failed err => do log_error (stack err) then ret (Failed err)
  | Answer result =>
      ret (Answer (match result with s :: _ => displayName s | [] => siteName end))
  end.

(** The exclusion id is a string or absent, never a function: the
    [util.isFunction(id)] shuffle of the arguments does not arise. *)
Definition getWhere (id : option string) (where_ : Where) : Where :=
  match id with
  | Some i => if negb (String.eqb i "") then where_ ++ [(F_id, NotId i)] else where_
  | None => where_
  end.

(** [displayName.toLowerCase()] and [hostname.toLowerCase()] are those
    of the platform the process runs on, [c]. *)
Definition getExistingDisplayNameHostnameCounts
  (displayName hostname : string) (id : option string) :
  Proc (option Error * list (string * option Z)) :=
  let* c := ask casing in
  let tasks :=
    [("displayName",
      dao_count "site"
        (getWhere id [(F_displayName, Like (AnchoredIgnoreCase (toLowerCase c displayName)))]));
     ("hostname",
      dao_count "site" (getWhere id [(F_hostname, Is (Str (toLowerCase c hostname)))]))] in
  async_parallel tasks.

(** The variable [result] of [isDisplayNameOrHostnameTaken]: a boolean
    until the first [|=], a 32-bit integer after it. *)
Inductive Flag : Type := FlagBool (b : bool) | FlagInt (n : Z).

Definition flag_int (f : Flag) : Z :=
  match f with FlagBool b => Z.b2z b | FlagInt n => n end.

Definition flag_truthy (f : Flag) : bool :=
  match f with FlagBool b => b | FlagInt n => negb (n =? 0)%Z end.

(** [result |= results[key] > 0], an absent count comparing false. *)
Definition flag_or_count (f : Flag) (count : option Z) : Flag :=
  FlagInt (Z.lor (flag_int f)
             (Z.b2z (match count with Some n => (0 <? n)%Z | None => false end))).

(** [results] is [None] for null. *)
Definition taken_flag (results : option (list (string * option Z))) : Flag :=
  match results with
  | None => FlagBool true
  | Some kvs => fold_left (fun f kv => flag_or_count f (snd kv)) kvs (FlagBool false)
  end.

Definition isDisplayNameOrHostnameTaken
  (displayName hostname : string) (id : option string) : Proc (option Error * Flag) :=
  let* '(err, results) := getExistingDisplayNameHostnameCounts displayName hostname id in
  let result := taken_flag (Some results) in
  ret (err, result).

Definition siteExists (siteUid : string) : Proc (Reply bool) :=
  dao_exists SITE_COLL [(F_uid, Is (Str siteUid))].

Definition activateSite (siteUid : string) : Proc (string * (option Error * option Site)) :=
  let name := "ACTIVATE_SITE_" +:+ siteUid in
  let job := new_job SiteActivateJob in
  let job := setRunAsInitiator true job in
  let* job := job_init name None job in
  let job := setSite siteUid job in
  let* outcome := job_run job in
  ret (getId job, outcome).

Definition deactivateSite (siteUid : string) : Proc (string * (option Error * option Site)) :=
  let name := "DEACTIVATE_SITE_" +:+ siteUid in
  let job := new_job SiteDeactivateJob in
  let job := setRunAsInitiator true job in
  let* job := job_init name None job in
  let job := setSite siteUid job in
  let* outcome := job_run job in
  ret (getId job, outcome).

Definition getUid : Proc string := uniqueId.

(** The arguments of [cb(err, isTaken, field, result)]. *)
Record Created : Type := mkCreated {
  cr_err : option Error;
  cr_isTaken : Flag;
  cr_field : Val;
  cr_result : option Site
}.

Definition createSite (site : Site) (id : option string) : Proc Created :=
  let site := set_active false site in
  let* u := getUid in
  let site := set_uid u site in
  let* '(err, isTaken) := isDisplayNameOrHostnameTaken (displayName site) (hostname site) id in
  if bool_decide (err <> None) || flag_truthy isTaken then
    ret (mkCreated err isTaken Undefined None)
  else
    let* saved := dao_save site in
    match saved with
    | Failed err => ret (mkCreated (Some err) (FlagBool false) Null None)
    | Answer result => ret (mkCreated None (FlagBool false) Null (Some result))
    end.

(** [result] is declared by none of the functions around the callbacks
    below (they declare err, site; siteUid, cb, dao; pb, SiteService,
    SITE_COLL, getUid; async, url, util): it is read from the global
    object. *)
Definition startAcceptingSiteTraffic (siteUid : string) :
  Proc (Completion (option Error * Val)) :=
  let* r := dao_loadByValue F_uid (Str siteUid) "site" in
  match r with
  | Failed err => ret (CalledBack (Some err, Null))
  | Answer None => ret (CalledBack (Some (Err "Site not found"), Null))
  | Answer (Some site) =>
      if negb (active site) then ret (CalledBack (Some (Err "Site not active"), Null))
      else
        do route (ActivateSite site) then
        let* result := read_global "result" in
        match result with
        | inl e => ret (Threw e)
        | inr v => ret (CalledBack (None, v))
        end
  end.

Definition stopAcceptingSiteTraffic (siteUid : string) :
  Proc (Completion (option Error * Val)) :=
  let* r := dao_loadByValue F_uid (Str siteUid) "site" in
  match r with
  | Failed err => ret (CalledBack (Some err, Null))
  | Answer None => ret (CalledBack (Some (Err "Site not found"), Null))
  | Answer (Some site) =>
      if active site then ret (CalledBack (Some (Err "Site not deactivated"), Null))
      else
        do route (DeactivateSite site) then
        let* result := read_global "result" in
        match result with
        | inl e => ret (Threw e)
        | inr v => ret (CalledBack (None, v))
        end
  end.

(** The global hostname when it is configured (a truthy value). *)
Definition configured (root : option string) : option string :=
  match root with
  | Some r => if String.eqb r "" then None else Some r
  | None => None
  end.

Definition global_hostname_error : Error :=
  Err "A Global Hostname must be configured with multisite turned on.".

(** [url_host root] stands for [url.parse(root).host] of Node's url
    module. The host is taken to be a string: the configured roots
    carry a scheme and an authority. *)
Definition initSites (url_host : string -> string) : Proc (option Error * option bool) :=
  let* c := ask config in
  match multisite_enabled c, configured (multisite_globalRoot c) with
  | true, None => ret (Some global_hostname_error, Some false)
  | enabled, root =>
      let* r := getAllSites in
      match r with
      | Failed err => ret (Some err, None)
      | Answer results =>
          do forEach results (fun site => route (LoadSite site)) then
          do route (LoadSite
                {| displayName := GLOBAL_SITE;
                   uid := GLOBAL_SITE;
                   hostname := match enabled, root with
                               | true, Some g => url_host g
                               | _, _ => url_host (siteRoot c)
                               end;
                   active := if enabled then false else true;
                   _id := None |}) then
          ret (None, Some true)
      end
  end.

(** Modelled from the spec: registerForType of pb.CommandService
    (include/system/command_service.js), which is missing. Section 6:
    registerHandler(type, fn). *)
Definition registerForType (type : string) (h : Handler) : Proc unit := add_handler type h.

(** Modelled from the spec: sendInResponseTo of the missing
    pb.CommandService. Section 6: respondTo(command, payload). *)
Definition sendInResponseTo (command : Command) (response : Response) : Proc unit :=
  add_response command response.

(** A command that is not an object is [None]. *)
Definition onActivateSiteCommandReceived (command : option Command) : Proc unit :=
  match command with
  | None => log_error "SiteService: an invalid activate_site command object was passed."
  | Some command =>
      let name := "ACTIVATE_SITE_" +:+ cmd_site command in
      let job := new_job SiteActivateJob in
      let job := setRunAsInitiator false job in
      let* job := job_init name (Some (cmd_jobId command)) job in
      let job := setSite (cmd_site command) job in
      let* '(err, result) := job_run job in
      let response :=
        {| resp_error := match err with Some e => Some (stack e) | None => None end;
           resp_result := match result with Some _ => true | None => false end |} in
      sendInResponseTo command response
  end.

Definition onDeactivateSiteCommandReceived (command : option Command) : Proc unit :=
  match command with
  | None => log_error "SiteService: an invalid deactivate_site command object was passed."
  | Some command =>
      let name := "DEACTIVATE_SITE_" +:+ cmd_site command in
      let job := new_job SiteDeactivateJob in
      let job := setRunAsInitiator false job in
      let* job := job_init name (Some (cmd_jobId command)) job in
      let job := setSite (cmd_site command) job in
      let* '(err, result) := job_run job in
      let response :=
        {| resp_error := match err with Some e => Some (stack e) | None => None end;
           resp_result := match result with Some _ => true | None => false end |} in
      sendInResponseTo command response
  end.

Definition init : Proc unit :=
  do registerForType "deactivate_site" Ref_onActivateSiteCommandReceived then
  registerForType "activate_site" Ref_onDeactivateSiteCommandReceived.

Definition run_handler (h : Handler) : option Command -> Proc unit :=
  match h with
  | Ref_onActivateSiteCommandReceived => onActivateSiteCommandReceived
  | Ref_onDeactivateSiteCommandReceived => onDeactivateSiteCommandReceived
  end.

(** Modelled from the spec: the handlers the missing pb.CommandService
    holds for a type, in the order of registration. *)
Definition handlers_for (type : string) (w : World) : list Handler :=
  map snd (List.filter (fun th => String.eqb (fst th) type) (handlers w)).

(** Modelled from the spec: the delivery of an inbound command by the
    missing pb.CommandService. Section 4.4: one inbound handler per
    command type; the command reaches the handlers registered for its
    type. *)
Definition deliver (command : Command) : Proc unit :=
  let* hs := ask (handlers_for (cmd_type command)) in
  forEach hs (fun h => run_handler h (Some command)).

(** An object as the list of its own properties; a missing object
    (null or undefined) is [None]. *)
Definition property (key : string) (props : list (string * Val)) : Val :=
  match List.find (fun p => String.eqb (fst p) key) props with
  | Some p => snd p
  | None => Undefined
  end.

(** [if (!object) return SiteService.NO_SITE; return object[SiteService.SITE_FIELD]] *)
Definition getSiteFromObject (object : option (list (string * Val))) : Val :=
  match object with
  | None => Str NO_SITE
  | Some props => property SITE_FIELD props
  end.

(** ** The new-article controller: the template options

    The second source file is the admin controller of the new-article
    page. Its [getTemplateOptions] builds the option list of content
    templates from the active theme: the controller files of the theme
    and the templates its details.json declares. What the database, the
    file system and JSON.parse answer is given by an environment. *)

Module NewArticle.

Record Setting : Type := mkSetting { value : string }.

Record ContentTemplate : Type := mkContentTemplate { file : string; name : string }.

Record Details : Type := mkDetails { content_templates : list ContentTemplate }.

Record Env : Type := mkEnv {
  DOCUMENT_ROOT : string;
  (* getDBObjectsWithValues({object_type: 'setting', key: 'active_theme'}) *)
  active_theme : list Setting;
  (* fs.readdir: the entries, or no directory when it reports an error *)
  readdir : string -> option (list string);
  (* fs.readFile: the content, or an error *)
  readFile : string -> option string;
  (* JSON.parse: the details, or a SyntaxError *)
  parse : string -> option Details
}.

(** What the call ends with: [output(list)], or the exception of
    JSON.parse. *)
Inductive Outcome : Type :=
| Output (list : string)
| SyntaxError.

(** [directory[file].substr(0, directory[file].indexOf('.js'))] for an
    entry with [indexOf('.js') > -1]. *)
Definition templateFile (entry : string) : option string :=
  match index 0 ".js" entry with
  | Some n => Some (substring 0 n entry)
  | None => None
  end.

(** The loop over the directory; no directory, no turn of the loop. *)
Definition availableTemplates (directory : option (list string)) : list string :=
  match directory with
  | None => []
  | Some entries =>
      fold_left (fun available entry =>
                   match templateFile entry with
                   | Some t => available ++ [t]
                   | None => available
                   end) entries []
  end.

Definition quote : string := String (ascii_of_nat 34) EmptyString.

(** ['<option value="' + file + '">' + name + '</option>'] *)
Definition option_tag (t : ContentTemplate) : string :=
  "<option value=" +:+ quote +:+ file t +:+ quote +:+ ">" +:+ name t +:+ "</option>".

(** The two nested loops over [details.content_templates] and
    [availableTemplates]. *)
Definition templatesList (details : Details) (available : list string) : string :=
  fold_left (fun acc t =>
               fold_left (fun acc a =>
                            if String.eqb (file t) a then acc +:+ option_tag t else acc)
                 available acc)
    (content_templates details) "".

Definition getTemplateOptions (env : Env) : Outcome :=
  match active_theme env with
  | [] => Output ""
  | theme :: _ =>
      let directory :=
        readdir env (DOCUMENT_ROOT env +:+ "/plugins/themes/" +:+ value theme +:+ "/controllers") in
      let available := availableTemplates directory in
      match readFile env
              (DOCUMENT_ROOT env +:+ "/plugins/themes/" +:+ value theme +:+ "/details.json") with
      | None => Output ""
      | Some data =>
          match parse env data with
          | None => SyntaxError
          | Some details => Output (templatesList details available)
          end
      end
  end.

(** The options of one declared template: its tag once for every
    controller entry that gives its file name. *)
Definition options_of (available : list string) (t : ContentTemplate) : string :=
  String.concat "" (map (fun _ => option_tag t)
                      (List.filter (fun a => String.eqb (file t) a) available)).

(** A theme with two controller files, a details.json beside them and
    three declared templates, for the examples. *)
Definition example_env : Env :=
  {| DOCUMENT_ROOT := "/srv";
     active_theme := [mkSetting "plain"];
     readdir := fun path =>
       if String.eqb path "/srv/plugins/themes/plain/controllers"
       then Some ["article.js"; "index.json"; "README.md"] else None;
     readFile := fun path =>
       if String.eqb path "/srv/plugins/themes/plain/details.json"
       then Some "details" else None;
     parse := fun data =>
       if String.eqb data "details"
       then Some (mkDetails [mkContentTemplate "index" "Home";
                             mkContentTemplate "gallery" "Gallery";
                             mkContentTemplate "article" "Article"])
       else None |}.

End NewArticle.

(** ** Vocabulary of the properties *)

(** The persisted record of a uid: the first document that carries it,
    which is the one a load by uid answers with. *)
Definition record_of (u : string) (l : list Site) : option Site :=
  List.find (fun s => String.eqb (uid s) u) l.

(** An identifier that is empty (falsy) or the sentinel 'global'. *)
Definition empty_or_global (v : Val) : Prop :=
  truthy v = false \/ v = Str GLOBAL_SITE.

(** Multisite without a global hostname: the root is absent or empty. *)
Definition no_global_hostname (c : Config) : Prop :=
  multisite_globalRoot c = None \/ multisite_globalRoot c = Some "".

(** The entry [initSites] registers for the global site. *)
Definition global_entry (url_host : string -> string) (c : Config) : Site :=
  {| _id := None;
     uid := GLOBAL_SITE;
     displayName := GLOBAL_SITE;
     hostname := match multisite_enabled c, multisite_globalRoot c with
                 | true, Some g => url_host g
                 | _, _ => url_host (siteRoot c)
                 end;
     active := negb (multisite_enabled c) |}.

(** *** Letter case on printable ASCII *)

(** A capital letter A to Z. *)
Definition capital (c : ascii) : bool :=
  (65 <=? nat_of_ascii c)%nat && (nat_of_ascii c <=? 90)%nat.

(** The capital letters A to Z taken to a to z, every other character
    kept. *)
Definition fold_letter (c : ascii) : ascii :=
  if capital c then ascii_of_nat (nat_of_ascii c + 32) else c.

Fixpoint fold_case (s : string) : string :=
  match s with
  | EmptyString => EmptyString
  | String c r => String (fold_letter c) (fold_case r)
  end.

(** A printable ASCII character (codes 32 to 126), and a string of such
    characters only. *)
Definition printable (c : ascii) : bool :=
  (32 <=? nat_of_ascii c)%nat && (nat_of_ascii c <=? 126)%nat.

Fixpoint plain (s : string) : bool :=
  match s with
  | EmptyString => true
  | String c r => printable c && plain r
  end.

(** A string without a capital letter A to Z. *)
Fixpoint no_capital (s : string) : bool :=
  match s with
  | EmptyString => true
  | String c r => negb (capital c) && no_capital r
  end.

(** Two characters that are equal, or a capital letter and its small
    letter, 32 codes further. *)
Definition same_letter (a b : ascii) : bool :=
  Ascii.eqb a b
  || (capital a && (nat_of_ascii b =? nat_of_ascii a + 32)%nat)
  || (capital b && (nat_of_ascii a =? nat_of_ascii b + 32)%nat).

(** Two strings of the same length that are the same character by
    character up to the case of the letters: 'ACME' and 'Acme' are,
    'Acme' and 'Acme Corp' are not. *)
Fixpoint same_up_to_case (a b : string) : bool :=
  match a, b with
  | EmptyString, EmptyString => true
  | String x a', String y b' => same_letter x y && same_up_to_case a' b'
  | _, _ => false
  end.

(** A platform on printable ASCII: [toLowerCase] takes the capital
    letters to small ones and keeps the rest, and the expression
    /^lit$/i matches the strings that are [lit] up to the case of the
    letters, and no others. *)
Definition ascii_casing : Casing :=
  {| toLowerCase := fold_case; test_anchored_i := same_up_to_case |}.

(** What every platform does on strings of printable ASCII, where the
    case tables of Unicode agree with the above. Nothing is said about
    other strings. *)
Definition lawful_on_plain (c : Casing) : Prop :=
  (forall s, plain s = true -> toLowerCase c s = fold_case s)
  /\ (forall lit s, plain lit = true -> plain s = true ->
      test_anchored_i c lit s = same_up_to_case lit s).

(** A list of names no two of which are the same up to case. *)
Definition unique_up_to_case (l : list string) : Prop :=
  forall i j a b, l !! i = Some a -> l !! j = Some b -> same_up_to_case a b = true -> i = j.

(** A document that an exclusion id, when one is supplied, leaves in. *)
Definition not_excluded (id : option string) (s : Site) : bool :=
  match id with
  | Some i => String.eqb i "" || negb (bool_decide (_id s = Some i))
  | None => true
  end.

(** The number of documents whose display name the platform matches
    against the given one, lower-cased and read as an anchored
    expression that ignores case, and of documents whose hostname is the
    given one as the platform lower-cases it, the excluded document
    left out. *)
Definition displayName_count (c : Casing) (dn : string) (id : option string)
  (l : list Site) : Z :=
  Z.of_nat (length (List.filter
    (fun s => test_anchored_i c (toLowerCase c dn) (displayName s)
              && not_excluded id s) l)).

Definition hostname_count (c : Casing) (hn : string) (id : option string)
  (l : list Site) : Z :=
  Z.of_nat (length (List.filter
    (fun s => String.eqb (hostname s) (toLowerCase c hn) && not_excluded id s) l)).

(** The world after the store was sent one more operation. *)
Definition after_op (op : DaoOp) (w : World) : World := snd (log_dao op w).
Definition after_route (c : RouteCall) (w : World) : World := snd (route c w).

(** Between [w] and [w'] no document changed, the Routing Registry was
    not called, and the store was sent reads only. *)
Definition read_only (w w' : World) : Prop :=
  sites w' = sites w
  /\ route_calls w' = route_calls w
  /\ exists ops, dao_log w' = dao_log w ++ ops /\ Forall (fun op => is_write op = false) ops.

(** *** A small deployment, for the examples *)

Definition example_config : Config :=
  {| siteName := "My Site"; siteRoot := "http://localhost:8080";
     multisite_enabled := false; multisite_globalRoot := None |}.

Definition multisite_config : Config :=
  {| siteName := "My Site"; siteRoot := "http://localhost:8080";
     multisite_enabled := true; multisite_globalRoot := Some "http://global.example.com" |}.

Definition broken_config : Config :=
  {| siteName := "My Site"; siteRoot := "http://localhost:8080";
     multisite_enabled := true; multisite_globalRoot := None |}.

Definition acme : Site :=
  {| _id := Some "5f1"; uid := "acme"; displayName := "Acme";
     hostname := "acme.example.com"; active := true |}.

Definition beta : Site :=
  {| _id := Some "5f2"; uid := "beta"; displayName := "Beta";
     hostname := "beta.example.com"; active := false |}.

Definition world_of (c : Config) (l : list Site) : World :=
  {| config := c; globals := []; sites := l; dao_fault := None; dao_log := [];
     route_calls := []; handlers := []; responses := []; broadcasts := [];
     jobs_run := []; error_log := []; id_counter := 0; casing := ascii_casing |}.

Definition example_world : World := world_of example_config [acme; beta].

(** *** A platform that knows more letters, for the examples *)

(** In UTF-8 an accented capital letter of Latin-1 is the byte 195 and
    then a byte from 128 to 158, the multiplication sign at 151 apart;
    its small letter has the second byte 32 codes further. *)
Definition latin_capital (d : ascii) : bool :=
  (128 <=? nat_of_ascii d)%nat && (nat_of_ascii d <=? 158)%nat
  && negb (nat_of_ascii d =? 151)%nat.

Fixpoint fold_latin (s : string) : string :=
  match s with
  | EmptyString => EmptyString
  | String c r =>
      match r with
      | String d r' =>
          if (nat_of_ascii c =? 195)%nat && latin_capital d
          then String c (String (ascii_of_nat (nat_of_ascii d + 32)) (fold_latin r'))
          else String (fold_letter c) (fold_latin r)
      | EmptyString => String (fold_letter c) EmptyString
      end
  end.

Definition latin_casing : Casing :=
  {| toLowerCase := fold_latin;
     test_anchored_i := fun lit s => String.eqb (fold_latin lit) (fold_latin s) |}.

Definition cafe : Site :=
  {| _id := Some "5f3"; uid := "cafe"; displayName := "Café";
     hostname := "École.example.com"; active := true |}.

Definition latin_world : World :=
  {| config := example_config; globals := []; sites := [cafe]; dao_fault := None;
     dao_log := []; route_calls := []; handlers := []; responses := []; broadcasts := [];
     jobs_run := []; error_log := []; id_counter := 0; casing := latin_casing |}.

(** The host of a root such as http://host:port, for the examples. *)
Definition example_host (root : string) : string :=
  match index 0 "://" root with
  | Some n => substring (n + 3) (String.length root - (n + 3)) root
  | None => root
  end.

(** The display names of the stored sites, and their hostnames. *)
Definition displayNames (l : list Site) : list string := map displayName l.

Definition hostnames (l : list Site) : list string := map hostname l.

(** What the read of the free identifier [result] ends a call with. *)
Definition result_read (w : World) : Completion (option Error * Val) :=
  match List.find (fun p => String.eqb (fst p) "result") (globals w) with
  | Some p => CalledBack (None, snd p)
  | None => Threw (ReferenceError "result is not defined")
  end.

(** A store that fails, for the examples. *)
Definition failing_world : World :=
  {| config := example_config; globals := []; sites := [acme; beta];
     dao_fault := Some (Err "connection lost"); dao_log := [];
     route_calls := []; handlers := []; responses := []; broadcasts := [];
     jobs_run := []; error_log := []; id_counter := 0; casing := ascii_casing |}.

(** The world after the two counts of the validator were sent. *)
Definition after_validation (dn hn : string) (id : option string) (w : World) : World :=
  after_op (OpCount "site" (getWhere id [(F_hostname, Is (Str (toLowerCase (casing w) hn)))]))
    (after_op (OpCount "site"
       (getWhere id
          [(F_displayName, Like (AnchoredIgnoreCase (toLowerCase (casing w) dn)))])) w).

(** The document [createSite] hands to the store: the input made
    inactive and given the generated uid. *)
Definition draft_of (site : Site) (w : World) : Site :=
  set_uid ("uid-" +:+ decimal (id_counter w)) (set_active false site).

(** A stored document that collides with a site on a platform: it is
    not excluded, and the platform matches its display name against the
    site's, lower-cased and read as an anchored expression that ignores
    case, or its hostname is the site's as the platform lower-cases
    it. *)
Definition collides (c : Casing) (site : Site) (id : option string) (s : Site) : Prop :=
  not_excluded id s = true
  /\ (test_anchored_i c (toLowerCase c (displayName site)) (displayName s) = true
      \/ hostname s = toLowerCase c (hostname site)).

(** The same on printable ASCII: the document is not excluded and has
    the site's display name up to case, or its hostname is the site's
    with the capital letters made small. *)
Definition collides_plain (site : Site) (id : option string) (s : Site) : Prop :=
  not_excluded id s = true
  /\ (same_up_to_case (displayName s) (displayName site) = true
      \/ hostname s = fold_case (hostname site)).

(** The stored display names, and that of a site, are printable
    ASCII. *)
Definition plain_names (l : list Site) : Prop :=
  forall s, s ∈ l -> plain (displayName s) = true.

(** * Properties *)

(** ** Site identifiers *)

Section StrictEquality.

Lemma pos_cont_sym m m' :
  PosDef.Pos.compare_cont Eq m' m = CompOpp (PosDef.Pos.compare_cont Eq m m').
Proof. exact (Pos.compare_antisym m m'). Qed.

Lemma SFeqb_sym x y : SFeqb x y = SFeqb y x.
Proof.
  unfold SFeqb, SFcompare.
  destruct x as [[]|[]| |[] m e], y as [[]|[]| |[] m' e']; try reflexivity;
    rewrite (Z.compare_antisym e e'); destruct (e ?= e')%Z; simpl; try reflexivity;
    rewrite (pos_cont_sym m m'); destruct (PosDef.Pos.compare_cont Eq m m'); reflexivity.
Qed.

Lemma SFeqb_finite s m e s' m' e' :
  SFeqb (S754_finite s m e) (S754_finite s' m' e') = true ->
  s = s' /\ m = m' /\ e = e'.
Proof.
  unfold SFeqb, SFcompare.
  destruct s, s'; try discriminate;
    destruct (Z.compare_spec e e'); try discriminate;
    change (PosDef.Pos.compare_cont Eq m m') with (Pos.compare m m');
    destruct (Pos.compare_spec m m'); try discriminate; subst; auto.
Qed.

(** Two strictly equal values are either the same value or two zeros. *)
Lemma strict_eq_cases a b :
  strict_eq a b = true ->
  a = b \/ exists s s', a = Num (S754_zero s) /\ b = Num (S754_zero s').
Proof.
  destruct a as [| |x|x|x|x], b as [| |y|y|y|y]; simpl; try discriminate; auto.
  - intros H. apply Bool.eqb_prop in H. subst; auto.
  - destruct x as [s|s| |s m e], y as [s'|s'| |s' m' e'];
      try (unfold SFeqb; simpl; discriminate).
    1: (intros _; right; eauto).
    1-7: (unfold SFeqb; simpl; destruct s, s'; first [discriminate | auto]).
    intros H. apply SFeqb_finite in H as (-> & -> & ->). auto.
  - intros H. apply String.eqb_eq in H. subst; auto.
  - intros H. apply Nat.eqb_eq in H. subst; auto.
Qed.

Lemma strict_eq_sym a b : strict_eq a b = strict_eq b a.
Proof.
  destruct a, b; simpl; try reflexivity.
  - destruct b, b0; reflexivity.
  - apply SFeqb_sym.
  - apply String.eqb_sym.
  - apply Nat.eqb_sym.
Qed.

(** [===] is reflexive on every value that is truthy: the only value
    that differs from itself is NaN, and NaN is falsy. *)
Lemma strict_eq_refl_truthy a : truthy a = true -> strict_eq a a = true.
Proof.
  destruct a as [| |b|x|s|r]; simpl; try discriminate; auto.
  - destruct b; auto.
  - destruct x as [s|s| |s m e]; try discriminate; intros _.
    + destruct s; reflexivity.
    + unfold SFeqb; simpl. destruct s; rewrite Z.compare_refl, ?Pos.compare_refl; reflexivity.
  - intros _. apply String.eqb_refl.
  - intros _. apply Nat.eqb_refl.
Qed.

Lemma strict_eq_isGlobal a b : strict_eq a b = true -> isGlobal a = isGlobal b.
Proof.
  intros H. destruct (strict_eq_cases a b H) as [->|(s & s' & -> & ->)]; reflexivity.
Qed.

Lemma strict_eq_trans a b c :
  strict_eq a b = true -> strict_eq b c = true -> strict_eq a c = true.
Proof.
  intros Hab Hbc.
  destruct (strict_eq_cases a b Hab) as [->|(s & s' & -> & ->)]; [assumption|].
  destruct (strict_eq_cases _ c Hbc) as [<-|(t & t' & Ht & ->)]; reflexivity.
Qed.

End StrictEquality.






(** ** The store *)

Section Store.

Lemma dao_request_ok {A} (op : DaoOp) (answer : World -> A) (w : World) :
  dao_fault w = None ->
  dao_request op answer w = (Answer (answer (after_op op w)), after_op op w).
Proof. intros H. unfold dao_request, bind, ask, ret, after_op. simpl. now rewrite H. Qed.

Lemma dao_request_failed {A} (op : DaoOp) (answer : World -> A) (w : World) e :
  dao_fault w = Some e ->
  dao_request op answer w = (Failed e, after_op op w).
Proof. intros H. unfold dao_request, bind, ask, ret, after_op. simpl. now rewrite H. Qed.

Lemma selects_uid {c : Casing} (u : string) (s : Site) :
  selects c [(F_uid, Is (Str u))] s = String.eqb (uid s) u.
Proof.
  unfold selects. simpl. rewrite andb_true_r.
  destruct (String.eqb_spec (uid s) u) as [->|Hne].
  - now apply bool_decide_eq_true.
  - apply bool_decide_eq_false. congruence.
Qed.

Lemma find_ext {A} (f g : A -> bool) (l : list A) :
  (forall x, f x = g x) -> List.find f l = List.find g l.
Proof. intros E. induction l as [|x l IH]; simpl; [reflexivity|]. now rewrite E, IH. Qed.

Lemma load_by_uid (u : string) (w : World) :
  dao_fault w = None ->
  dao_loadByValue F_uid (Str u) "site" w =
  (Answer (record_of u (sites w)), after_op (OpLoad "site" [(F_uid, Is (Str u))]) w).
Proof.
  intros H. unfold dao_loadByValue, dao_loadByValues.
  rewrite dao_request_ok by assumption. unfold record_of, collection. simpl.
  f_equal. f_equal. apply find_ext, selects_uid.
Qed.

Lemma record_of_none (u : string) (l : list Site) :
  record_of u l = None <-> forall s, s ∈ l -> uid s <> u.
Proof.
  unfold record_of. split.
  - intros H s Hs E. apply list_elem_of_In in Hs.
    apply (find_none _ _ H) in Hs. subst u. now rewrite String.eqb_refl in Hs.
  - intros H. induction l as [|d l IH]; simpl; [reflexivity|].
    destruct (String.eqb_spec (uid d) u) as [E|_].
    + exfalso. apply (H d); [left|assumption].
    + apply IH. intros s Hs. apply H. now right.
Qed.

Lemma record_of_some (u : string) (l : list Site) (s : Site) :
  record_of u l = Some s -> s ∈ l /\ uid s = u.
Proof.
  unfold record_of. intros H. apply find_some in H as [Hin E].
  split; [now apply list_elem_of_In | now apply String.eqb_eq].
Qed.

End Store.

(** ** [getByUid] *)

Lemma empty_or_global_test (v : Val) :
  negb (truthy v) || strict_eq v (Str GLOBAL_SITE) = true <-> empty_or_global v.
Proof.
  unfold empty_or_global. rewrite orb_true_iff, negb_true_iff. split.
  - intros [H|H]; [now left|].
    destruct v as [| |b|x|s|r]; simpl in H; try discriminate; auto.
    apply String.eqb_eq in H. subst. now right.
  - intros [H| ->]; [now left | now right].
Qed.

(** C6. For a uid that is falsy or 'global', [getByUid] answers with the
    record synthesized from the configuration (site name, site root,
    uid 'global') and leaves the whole state as it was: nothing is sent
    to the store. For every other uid it sends one load of the 'site'
    collection by [{uid: uid}] and answers with what the store answers:
    its failure, or the first document with that uid (null if none). *)
Theorem getByUid_global_or_stored (v : Val) (w : World) :
  (empty_or_global v ->
     getByUid v w =
     (Answer (GlobalSite {| g_displayName := siteName (config w);
                            g_hostname := siteRoot (config w);
                            g_uid := "global" |}), w))
  /\ (~ empty_or_global v ->
      snd (getByUid v w) = after_op (OpLoad "site" [(F_uid, Is v)]) w
      /\ fst (getByUid v w) =
         match dao_fault w with
         | Some e => Failed e
         | None => Answer (Stored (List.find (fun s => bool_decide (Str (uid s) = v)) (sites w)))
         end).
Proof.
  split; intros H; unfold getByUid.
  - apply empty_or_global_test in H. rewrite H. reflexivity.
  - destruct (negb (truthy v) || strict_eq v (Str GLOBAL_SITE)) eqn:T.
    { exfalso. apply H. now apply empty_or_global_test. }
    unfold bind, dao_loadByValues, SITE_COLL.
    destruct (dao_fault w) as [e|] eqn:F.
    + rewrite (dao_request_failed _ _ _ e F). split; reflexivity.
    + rewrite dao_request_ok by assumption. simpl. split; [reflexivity|].
      f_equal. f_equal. unfold collection. simpl. apply find_ext.
      intros s. unfold selects. simpl. now rewrite andb_true_r.
Qed.

Lemma getByUid_examples :
  getByUid (Str "") example_world =
    (Answer (GlobalSite (mkGlobalRecord "My Site" "http://localhost:8080" "global")),
     example_world)
  /\ fst (getByUid (Str "beta") example_world) = Answer (Stored (Some beta)).
Proof.
  split.
  - apply (proj1 (getByUid_global_or_stored (Str "") example_world)). now left.
  - rewrite (proj2 (proj2 (getByUid_global_or_stored (Str "beta") example_world)
                      ltac:(intros [H|H]; discriminate))).
    reflexivity.
Defined.

(** ** [startAcceptingSiteTraffic] *)

Lemma after_load_read_only (coll : string) (wh : Where) (w : World) :
  read_only w (after_op (OpLoad coll wh) w).
Proof.
  repeat split. exists [OpLoad coll wh]. split; [reflexivity|].
  constructor; [reflexivity | constructor].
Qed.

(** C3. With the store answering: when no document carries the uid,
    [startAcceptingSiteTraffic] calls back with the error 'Site not
    found'; when the record of the uid has [active = false], with the
    error 'Site not active'. In both cases nothing is asked of the
    Routing Registry, no document changes and the store is sent no
    write. *)
Theorem startAcceptingSiteTraffic_rejects (siteUid : string) (w : World) :
  dao_fault w = None ->
  ((forall s, s ∈ sites w -> uid s <> siteUid) ->
     fst (startAcceptingSiteTraffic siteUid w) = CalledBack (Some (Err "Site not found"), Null)
     /\ read_only w (snd (startAcceptingSiteTraffic siteUid w)))
  /\ (forall s, record_of siteUid (sites w) = Some s -> active s = false ->
     fst (startAcceptingSiteTraffic siteUid w) = CalledBack (Some (Err "Site not active"), Null)
     /\ read_only w (snd (startAcceptingSiteTraffic siteUid w))).
Proof.
  intros F. split.
  - intros H. apply record_of_none in H.
    unfold startAcceptingSiteTraffic, bind. rewrite load_by_uid by assumption.
    rewrite H. split; [reflexivity | apply after_load_read_only].
  - intros s H A.
    unfold startAcceptingSiteTraffic, bind. rewrite load_by_uid by assumption.
    rewrite H, A. split; [reflexivity | apply after_load_read_only].
Qed.

Lemma startAcceptingSiteTraffic_rejects_examples :
  fst (startAcceptingSiteTraffic "nobody" example_world) =
    CalledBack (Some (Err "Site not found"), Null)
  /\ fst (startAcceptingSiteTraffic "beta" example_world) =
    CalledBack (Some (Err "Site not active"), Null).
Proof.
  pose proof (startAcceptingSiteTraffic_rejects "nobody" example_world eq_refl) as [N _].
  pose proof (startAcceptingSiteTraffic_rejects "beta" example_world eq_refl) as [_ A].
  split.
  - apply N. intros s Hs. unfold example_world, world_of in Hs. simpl in Hs.
    rewrite !elem_of_cons, elem_of_nil in Hs.
    destruct Hs as [->|[->|[]]]; discriminate.
  - apply (A beta); reflexivity.
Defined.

(** On an active record the registry is told to activate it and then
    [result] is read: the callback is reached only if the global object
    happens to have such a property. *)
Lemma startAcceptingSiteTraffic_active (siteUid : string) (w : World) (s : Site) :
  dao_fault w = None ->
  record_of siteUid (sites w) = Some s ->
  active s = true ->
  startAcceptingSiteTraffic siteUid w =
  (match List.find (fun p => String.eqb (fst p) "result") (globals w) with
   | Some p => CalledBack (None, snd p)
   | None => Threw (ReferenceError "result is not defined")
   end,
   after_route (ActivateSite s) (after_op (OpLoad "site" [(F_uid, Is (Str siteUid))]) w)).
Proof.
  intros F H A.
  unfold startAcceptingSiteTraffic, bind. rewrite load_by_uid by assumption.
  rewrite H, A. simpl. unfold read_global. simpl.
  destruct (List.find _ (globals w)); reflexivity.
Qed.

(** C2. For the uid 'acme', whose persisted record is active, the
    Routing Registry is told to activate the loaded record and the
    documents stay as they were, but the callback is never invoked: the
    read of the undeclared [result] raises a ReferenceError first. *)
Theorem startAcceptingSiteTraffic_active_raises :
  record_of "acme" (sites example_world) = Some acme
  /\ active acme = true
  /\ fst (startAcceptingSiteTraffic "acme" example_world) =
     Threw (ReferenceError "result is not defined")
  /\ route_calls (snd (startAcceptingSiteTraffic "acme" example_world)) = [ActivateSite acme]
  /\ sites (snd (startAcceptingSiteTraffic "acme" example_world)) = sites example_world.
Proof.
  rewrite (startAcceptingSiteTraffic_active "acme" example_world acme eq_refl eq_refl eq_refl).
  repeat split.
Qed.

(** ** [initSites] *)

Lemma forEach_route_calls {A} (f : A -> RouteCall) (l : list A) (w : World) :
  route_calls (snd (forEach l (fun x => route (f x)) w)) = route_calls w ++ map f l
  /\ sites (snd (forEach l (fun x => route (f x)) w)) = sites w.
Proof.
  revert w. induction l as [|x l IH]; intros w; simpl.
  - now rewrite app_nil_r.
  - unfold bind. simpl. destruct (IH (after_route (f x) w)) as [R S].
    unfold after_route in R, S. simpl in R, S.
    rewrite R, S. simpl. now rewrite <- app_assoc.
Qed.

Lemma configured_none (root : option string) :
  configured root = None <-> root = None \/ root = Some "".
Proof.
  destruct root as [r|]; simpl.
  - destruct (String.eqb_spec r "") as [->|Hne]; split; auto; try discriminate.
    intros [H|H]; congruence.
  - split; auto.
Qed.

Lemma filter_all {c : Casing} (l : list Site) : List.filter (selects c []) l = l.
Proof. induction l as [|d l IH]; simpl; [reflexivity | now rewrite IH]. Qed.

Lemma getAllSites_ok (w : World) :
  dao_fault w = None ->
  getAllSites w = (Answer (sites w), after_op (OpQuery "site" []) w).
Proof.
  intros F. unfold getAllSites, dao_q, SITE_COLL. rewrite dao_request_ok by assumption.
  unfold collection. simpl. now rewrite filter_all.
Qed.

Lemma initSites_loaded (url_host : string -> string) (w : World) :
  ~ (multisite_enabled (config w) = true /\ no_global_hostname (config w)) ->
  dao_fault w = None ->
  initSites url_host w =
  (None, Some true,
   after_route (LoadSite (global_entry url_host (config w)))
     (snd (forEach (sites w) (fun site => route (LoadSite site)) (after_op (OpQuery "site" []) w)))).
Proof.
  intros C F. unfold initSites, bind, ask. simpl.
  unfold global_entry, after_route.
  destruct (multisite_enabled (config w)) eqn:E;
    [destruct (configured (multisite_globalRoot (config w))) as [g|] eqn:G|].
  - rewrite getAllSites_ok by assumption.
    destruct (forEach (sites w) _ _) as [[] w1]. simpl.
    destruct (multisite_globalRoot (config w)) as [r|]; simpl in G; [|discriminate].
    destruct (String.eqb r ""); [discriminate|]. injection G as ->. reflexivity.
  - exfalso. apply C. split; [reflexivity|]. now apply configured_none.
  - rewrite getAllSites_ok by assumption.
    destruct (forEach (sites w) _ _) as [[] w1]. reflexivity.
Qed.

(** C9. With multisite enabled and no global hostname configured,
    [initSites] calls back with the configuration error and [false] and
    leaves the whole state as it was: nothing is loaded and nothing is
    registered. Otherwise, the store answering, it calls back with no
    error and [true], having asked the Routing Registry to load every
    persisted site, active or not, in the order of the store, and after
    them the entry for the global site built from the configuration. *)
Theorem initSites_bootstrap (url_host : string -> string) (w : World) :
  (multisite_enabled (config w) = true -> no_global_hostname (config w) ->
     initSites url_host w =
     ((Some (Err "A Global Hostname must be configured with multisite turned on."), Some false),
      w))
  /\ (~ (multisite_enabled (config w) = true /\ no_global_hostname (config w)) ->
      dao_fault w = None ->
      fst (initSites url_host w) = (None, Some true)
      /\ route_calls (snd (initSites url_host w)) =
         route_calls w ++ map LoadSite (sites w)
           ++ [LoadSite (global_entry url_host (config w))]
      /\ (forall s, s ∈ sites w -> LoadSite s ∈ route_calls (snd (initSites url_host w)))
      /\ sites (snd (initSites url_host w)) = sites w).
Proof.
  split.
  - intros E N. apply configured_none in N.
    unfold initSites, bind, ask. simpl. now rewrite E, N.
  - intros C F. rewrite initSites_loaded by assumption. cbn [fst snd].
    destruct (forEach_route_calls LoadSite (sites w) (after_op (OpQuery "site" []) w))
      as [R S].
    assert (RC : route_calls
                   (after_route (LoadSite (global_entry url_host (config w)))
                      (snd (forEach (sites w) (fun site => route (LoadSite site))
                              (after_op (OpQuery "site" []) w))))
                 = route_calls w ++ map LoadSite (sites w)
                     ++ [LoadSite (global_entry url_host (config w))]).
    { unfold after_route. simpl. rewrite R. simpl. now rewrite <- app_assoc. }
    split; [reflexivity|]. split; [exact RC|]. split.
    + intros s Hs. rewrite RC. apply elem_of_app. right. apply elem_of_app. left.
      now apply list_elem_of_fmap_2.
    + unfold after_route. simpl. exact S.
Qed.

Lemma initSites_examples :
  fst (initSites example_host (world_of broken_config [acme; beta])) =
    (Some (Err "A Global Hostname must be configured with multisite turned on."), Some false)
  /\ route_calls (snd (initSites example_host (world_of multisite_config [acme; beta]))) =
     [LoadSite acme; LoadSite beta;
      LoadSite (mkSite None "global" "global" "global.example.com" false)].
Proof.
  split.
  - rewrite (proj1 (initSites_bootstrap example_host (world_of broken_config [acme; beta])));
      [reflexivity | reflexivity | now left].
  - pose proof (proj2 (initSites_bootstrap example_host (world_of multisite_config [acme; beta])))
      as H.
    destruct H as (_ & R & _); [intros [_ [N|N]]; discriminate | reflexivity |].
    rewrite R. reflexivity.
Defined.

(** ** [getSiteMap] *)

Lemma selects_active {c : Casing} (b : bool) (s : Site) :
  selects c [(F_active, Is (Bool b))] s = Bool.eqb (active s) b.
Proof.
  unfold selects. simpl. rewrite andb_true_r.
  destruct (active s), b; reflexivity.
Qed.

Lemma filter_pointwise {A} (f g : A -> bool) (l : list A) :
  (forall x, f x = g x) -> List.filter f l = List.filter g l.
Proof. intros E. induction l as [|x l IH]; simpl; [reflexivity|]. now rewrite E, IH. Qed.

Lemma query_active (b : bool) (w : World) :
  dao_fault w = None ->
  dao_q SITE_COLL [(F_active, Is (Bool b))] w =
  (Answer (List.filter (fun s => Bool.eqb (active s) b) (sites w)),
   after_op (OpQuery "site" [(F_active, Is (Bool b))]) w).
Proof.
  intros F. unfold dao_q, SITE_COLL. rewrite dao_request_ok by assumption.
  unfold collection. simpl. f_equal. f_equal. apply filter_pointwise, selects_active.
Qed.

(** The documents split by a test, put back together, are the documents. *)
Lemma filter_split {A} (f : A -> bool) (l : list A) :
  List.filter f l ++ List.filter (fun x => negb (f x)) l ≡ₚ l.
Proof.
  induction l as [|x l IH]; simpl; [reflexivity|].
  destruct (f x); simpl.
  - now constructor.
  - rewrite <- Permutation_middle. now constructor.
Qed.

(** C7. With the store answering, [getSiteMap] calls back without error
    with the object {active, inactive}; it changes no document; and the
    two lists split what [getAllSites] answers on the same store: every
    persisted site is in exactly one of them, the active ones in
    [active], the others in [inactive], and the two together are the
    sites of [getAllSites], each as often as there. *)
Theorem getSiteMap_partition (w : World) :
  dao_fault w = None ->
  exists (act inact every : list Site) (w' : World),
    getSiteMap w = ((None, [("active", Some act); ("inactive", Some inact)]), w')
    /\ read_only w w'
    /\ fst (getAllSites w) = Answer every
    /\ every = sites w
    /\ (forall s, s ∈ every -> ((s ∈ act) /\ (s ∉ inact)) \/ ((s ∉ act) /\ (s ∈ inact)))
    /\ act ++ inact ≡ₚ every
    /\ (forall s, s ∈ act -> active s = true)
    /\ (forall s, s ∈ inact -> active s = false).
Proof.
  intros F.
  exists (List.filter (fun s => Bool.eqb (active s) true) (sites w)),
         (List.filter (fun s => Bool.eqb (active s) false) (sites w)),
         (sites w),
         (after_op (OpQuery "site" [(F_active, Is (Bool false))])
            (after_op (OpQuery "site" [(F_active, Is (Bool true))]) w)).
  split; [|split; [|split; [|split; [|split; [|split; [|split]]]]]].
  - unfold getSiteMap, async_series, getActiveSites, getInactiveSites, bind.
    rewrite query_active by assumption.
    rewrite query_active by assumption. reflexivity.
  - repeat split.
    exists [OpQuery "site" [(F_active, Is (Bool true))];
            OpQuery "site" [(F_active, Is (Bool false))]].
    split; [simpl; now rewrite <- app_assoc | repeat constructor].
  - now rewrite getAllSites_ok.
  - reflexivity.
  - intros s Hs. rewrite !list_elem_of_In, !filter_In, <- !list_elem_of_In.
    destruct (active s); simpl; [left | right]; intuition discriminate.
  - erewrite (filter_pointwise (fun s => Bool.eqb (active s) false)
                (fun s => negb (Bool.eqb (active s) true))).
    + apply filter_split.
    + intros s. now destruct (active s).
  - intros s Hs. apply list_elem_of_In, filter_In in Hs as [_ Hs].
    now destruct (active s).
  - intros s Hs. apply list_elem_of_In, filter_In in Hs as [_ Hs].
    now destruct (active s).
Qed.

Lemma getSiteMap_example :
  exists (act inact every : list Site) (w' : World),
    getSiteMap example_world = ((None, [("active", Some act); ("inactive", Some inact)]), w')
    /\ read_only example_world w'
    /\ fst (getAllSites example_world) = Answer every
    /\ every = sites example_world
    /\ (forall s, s ∈ every -> ((s ∈ act) /\ (s ∉ inact)) \/ ((s ∉ act) /\ (s ∈ inact)))
    /\ act ++ inact ≡ₚ every
    /\ (forall s, s ∈ act -> active s = true)
    /\ (forall s, s ∈ inact -> active s = false).
Proof. apply (getSiteMap_partition example_world). reflexivity. Defined.

(** ** The uniqueness validator *)

Lemma fold_letter_idem (c : ascii) : fold_letter (fold_letter c) = fold_letter c.
Proof. destruct c as [[] [] [] [] [] [] [] []]; reflexivity. Qed.

Lemma fold_case_idem (s : string) : fold_case (fold_case s) = fold_case s.
Proof. induction s as [|c s IH]; simpl; [reflexivity|]. now rewrite fold_letter_idem, IH. Qed.

Lemma fold_letter_printable (c : ascii) :
  printable c = true -> printable (fold_letter c) = true.
Proof. destruct c as [[] [] [] [] [] [] [] []]; vm_compute; auto. Qed.

Lemma fold_letter_small (c : ascii) : capital (fold_letter c) = false.
Proof. destruct c as [[] [] [] [] [] [] [] []]; reflexivity. Qed.

Lemma plain_fold_case (s : string) : plain s = true -> plain (fold_case s) = true.
Proof.
  induction s as [|c s IH]; simpl; [reflexivity|].
  intros H. apply andb_true_iff in H as [Hc Hs].
  now rewrite fold_letter_printable, IH.
Qed.

Lemma no_capital_fold_case (s : string) : no_capital (fold_case s) = true.
Proof. induction s as [|c s IH]; simpl; [reflexivity|]. now rewrite fold_letter_small, IH. Qed.

Lemma nat_of_ascii_bound (c : ascii) : (nat_of_ascii c < 256)%nat.
Proof. destruct c as [[] [] [] [] [] [] [] []]; vm_compute; lia. Qed.

Lemma ascii_eqb_code (a b : ascii) :
  Ascii.eqb a b = (nat_of_ascii a =? nat_of_ascii b)%nat.
Proof.
  destruct (Ascii.eqb_spec a b) as [->|Hne].
  - symmetry. apply Nat.eqb_refl.
  - symmetry. apply Nat.eqb_neq. intros E. apply Hne.
    rewrite <- (ascii_nat_embedding a), <- (ascii_nat_embedding b). now rewrite E.
Qed.

Lemma fold_letter_code (c : ascii) :
  nat_of_ascii (fold_letter c)
  = if capital c then (nat_of_ascii c + 32)%nat else nat_of_ascii c.
Proof.
  unfold fold_letter. destruct (capital c) eqn:C; [|reflexivity].
  apply nat_ascii_embedding. pose proof (nat_of_ascii_bound c).
  unfold capital in C. apply andb_true_iff in C as [_ C]. apply Nat.leb_le in C. lia.
Qed.

(** Two characters are the same letter exactly when they fold to the
    same character. *)
Lemma same_letter_fold (a b : ascii) :
  same_letter a b = Ascii.eqb (fold_letter a) (fold_letter b).
Proof.
  rewrite ascii_eqb_code, !fold_letter_code. unfold same_letter.
  rewrite ascii_eqb_code. unfold capital.
  destruct (Nat.leb_spec 65 (nat_of_ascii a)), (Nat.leb_spec (nat_of_ascii a) 90),
    (Nat.leb_spec 65 (nat_of_ascii b)), (Nat.leb_spec (nat_of_ascii b) 90);
    cbn [andb orb];
    repeat match goal with
           | |- context [(?x =? ?y)%nat] => destruct (Nat.eqb_spec x y)
           end; cbn [andb orb]; first [reflexivity | lia].
Qed.

(** Two strings are the same up to case exactly when they fold to the
    same string. *)
Lemma same_up_to_case_fold (a b : string) :
  same_up_to_case a b = String.eqb (fold_case a) (fold_case b).
Proof.
  revert b. induction a as [|x a IH]; intros [|y b]; simpl; try reflexivity.
  now rewrite same_letter_fold, IH.
Qed.

Lemma same_up_to_case_iff (a b : string) :
  same_up_to_case a b = true <-> fold_case a = fold_case b.
Proof. rewrite same_up_to_case_fold. apply String.eqb_eq. Qed.

Lemma same_up_to_case_sym (a b : string) : same_up_to_case a b = same_up_to_case b a.
Proof. rewrite !same_up_to_case_fold. apply String.eqb_sym. Qed.

Lemma same_up_to_case_folded (a b : string) :
  same_up_to_case (fold_case a) b = same_up_to_case a b.
Proof. now rewrite !same_up_to_case_fold, fold_case_idem. Qed.

Example same_up_to_case_examples :
  same_up_to_case "ACME" "Acme" = true
  /\ same_up_to_case "Acme" "Acme Corp" = false
  /\ same_up_to_case "Acme" "Acne" = false
  /\ same_up_to_case "A[c" "a{c" = false
  /\ fold_case "Acme.Example.COM" = "acme.example.com".
Proof. repeat split. Qed.

Lemma ascii_casing_lawful : lawful_on_plain ascii_casing.
Proof. split; reflexivity. Qed.

Lemma fold_latin_cons (c : ascii) (r : string) :
  fold_latin (String c r) =
  match r with
  | String d r' =>
      if (nat_of_ascii c =? 195)%nat && latin_capital d
      then String c (String (ascii_of_nat (nat_of_ascii d + 32)) (fold_latin r'))
      else String (fold_letter c) (fold_latin r)
  | EmptyString => String (fold_letter c) EmptyString
  end.
Proof. destruct r; reflexivity. Qed.

Lemma fold_latin_plain (s : string) : plain s = true -> fold_latin s = fold_case s.
Proof.
  induction s as [|c r IH]; [reflexivity|].
  intros H. apply andb_true_iff in H as [Hc Hr].
  assert (N : (nat_of_ascii c =? 195)%nat = false).
  { apply Nat.eqb_neq. unfold printable in Hc.
    apply andb_true_iff in Hc as [_ Hc]. apply Nat.leb_le in Hc. lia. }
  rewrite fold_latin_cons, N. specialize (IH Hr).
  destruct r as [|d r']; [reflexivity|]. cbn [andb]. now rewrite IH.
Qed.

Lemma latin_casing_lawful : lawful_on_plain latin_casing.
Proof.
  split.
  - exact fold_latin_plain.
  - intros lit s Hl Hs. cbn [test_anchored_i latin_casing].
    now rewrite (fold_latin_plain lit Hl), (fold_latin_plain s Hs), same_up_to_case_fold.
Qed.

(** On printable ASCII the match of the validator's expression is
    equality up to case. *)
Lemma test_plain (c : Casing) (dn name : string) :
  lawful_on_plain c -> plain dn = true -> plain name = true ->
  test_anchored_i c (toLowerCase c dn) name = same_up_to_case name dn.
Proof.
  intros [L T] Hd Hn. rewrite (L dn Hd), (T _ _ (plain_fold_case dn Hd) Hn).
  now rewrite same_up_to_case_folded, same_up_to_case_sym.
Qed.

Lemma unique_up_to_case_NoDup (l : list string) :
  unique_up_to_case l <-> NoDup (map fold_case l).
Proof.
  rewrite NoDup_alt. unfold unique_up_to_case. split.
  - intros U i j x Hi Hj.
    change (map fold_case l) with (fold_case <$> l) in Hi, Hj.
    rewrite list_lookup_fmap in Hi, Hj.
    destruct (l !! i) as [a|] eqn:Ea; [|discriminate].
    destruct (l !! j) as [b|] eqn:Eb; [|discriminate].
    simpl in Hi, Hj. apply (U i j a b Ea Eb).
    apply same_up_to_case_iff. congruence.
  - intros N i j a b Hi Hj E. apply same_up_to_case_iff in E.
    apply (N i j (fold_case a)); change (map fold_case l) with (fold_case <$> l);
      rewrite list_lookup_fmap; [rewrite Hi | rewrite Hj]; simpl; congruence.
Qed.

Lemma filter_In_pointwise {A} (f g : A -> bool) (l : list A) :
  (forall x, In x l -> f x = g x) -> List.filter f l = List.filter g l.
Proof.
  induction l as [|x l IH]; intros H; simpl; [reflexivity|].
  rewrite (H x (or_introl eq_refl)), IH; [reflexivity|].
  intros y Hy. apply H. now right.
Qed.

Lemma selects_app {c : Casing} (wh wh' : Where) (s : Site) :
  selects c (wh ++ wh') s = selects c wh s && selects c wh' s.
Proof. unfold selects. apply forallb_app. Qed.

Lemma selects_not_id {c : Casing} (i : string) (s : Site) :
  selects c [(F_id, NotId i)] s = negb (bool_decide (_id s = Some i)).
Proof.
  unfold selects. simpl. rewrite andb_true_r. f_equal.
  destruct (_id s) as [j|]; apply bool_decide_ext; split; congruence.
Qed.

Lemma selects_getWhere {c : Casing} (id : option string) (wh : Where) (s : Site) :
  selects c (getWhere id wh) s = selects c wh s && not_excluded id s.
Proof.
  unfold getWhere, not_excluded. destruct id as [i|].
  - destruct (String.eqb i ""); simpl.
    + now rewrite andb_true_r.
    + now rewrite selects_app, selects_not_id.
  - now rewrite andb_true_r.
Qed.

Lemma selects_displayName (c : Casing) (dn : string) (id : option string) (s : Site) :
  selects c (getWhere id [(F_displayName, Like (AnchoredIgnoreCase (toLowerCase c dn)))]) s
  = test_anchored_i c (toLowerCase c dn) (displayName s) && not_excluded id s.
Proof.
  rewrite selects_getWhere. f_equal. unfold selects. simpl.
  now rewrite andb_true_r.
Qed.

Lemma selects_hostname (c : Casing) (hn : string) (id : option string) (s : Site) :
  selects c (getWhere id [(F_hostname, Is (Str (toLowerCase c hn)))]) s
  = String.eqb (hostname s) (toLowerCase c hn) && not_excluded id s.
Proof.
  rewrite selects_getWhere. f_equal. unfold selects. simpl. rewrite andb_true_r.
  destruct (String.eqb_spec (hostname s) (toLowerCase c hn)) as [->|Hne].
  - now apply bool_decide_eq_true.
  - apply bool_decide_eq_false. congruence.
Qed.

Lemma dao_count_ok (wh : Where) (w : World) :
  dao_fault w = None ->
  dao_count "site" wh w =
  (Answer (Z.of_nat (length (List.filter (selects (casing w) wh) (sites w)))),
   after_op (OpCount "site" wh) w).
Proof. intros F. unfold dao_count. now rewrite dao_request_ok. Qed.

(** The two queries the validator sends. *)
Lemma counts_ok (dn hn : string) (id : option string) (w : World) :
  dao_fault w = None ->
  getExistingDisplayNameHostnameCounts dn hn id w =
  ((None, [("displayName", Some (displayName_count (casing w) dn id (sites w)));
           ("hostname", Some (hostname_count (casing w) hn id (sites w)))]),
   after_validation dn hn id w).
Proof.
  intros F. unfold getExistingDisplayNameHostnameCounts, async_parallel, bind, ask.
  cbn [fst snd].
  rewrite dao_count_ok by assumption.
  rewrite dao_count_ok by assumption.
  unfold ret, displayName_count, hostname_count. simpl.
  rewrite (filter_pointwise _ _ (sites w) (selects_displayName (casing w) dn id)).
  rewrite (filter_pointwise _ _ (sites w) (selects_hostname (casing w) hn id)).
  reflexivity.
Qed.

Lemma taken_flag_counts (n m : Z) :
  (0 <= n)%Z -> (0 <= m)%Z ->
  taken_flag (Some [("displayName", Some n); ("hostname", Some m)])
  = FlagInt (if (0 <? n)%Z || (0 <? m)%Z then 1 else 0).
Proof.
  intros Hn Hm. unfold taken_flag, flag_or_count. simpl.
  destruct (0 <? n)%Z, (0 <? m)%Z; reflexivity.
Qed.

Lemma count_nonneg {A} (l : list A) : (0 <= Z.of_nat (length l))%Z.
Proof. apply Nat2Z.is_nonneg. Qed.

Lemma taken_ok (dn hn : string) (id : option string) (w : World) :
  dao_fault w = None ->
  isDisplayNameOrHostnameTaken dn hn id w =
  ((None, FlagInt (if (0 <? displayName_count (casing w) dn id (sites w))%Z
                      || (0 <? hostname_count (casing w) hn id (sites w))%Z then 1 else 0)),
   snd (getExistingDisplayNameHostnameCounts dn hn id w)).
Proof.
  intros F. unfold isDisplayNameOrHostnameTaken, bind.
  rewrite counts_ok by assumption. cbn [fst snd ret].
  rewrite taken_flag_counts by apply count_nonneg. reflexivity.
Qed.

(** C5. With the store answering, the validator sends two counts and
    [isDisplayNameOrHostnameTaken] calls back without error with a value
    that is truthy exactly when one of the two counts is not zero. On
    every platform the displayName count is the number of documents
    whose display name matches the expression /^name$/i made of the
    given name in lower case (the whole name, not a part of it), and the
    hostname count that of the documents whose hostname is the given
    one in lower case; a document whose id is the exclusion id, when one
    is supplied, is in neither count. On printable ASCII, where what
    the platform does with letter case is known, the displayName count
    is the number of documents whose display name is the given one up
    to the case of the letters, and the hostname count that of the
    documents whose hostname is the given one with its capital letters
    made small. *)
Theorem isDisplayNameOrHostnameTaken_counts
  (dn hn : string) (id : option string) (w : World) :
  dao_fault w = None ->
  exists (n m : Z) (taken : Flag) (w1 w2 : World),
    getExistingDisplayNameHostnameCounts dn hn id w =
      ((None, [("displayName", Some n); ("hostname", Some m)]), w1)
    /\ isDisplayNameOrHostnameTaken dn hn id w = ((None, taken), w2)
    /\ (flag_truthy taken = true <-> n <> 0%Z \/ m <> 0%Z)
    /\ n = Z.of_nat (length (List.filter
              (fun s => test_anchored_i (casing w) (toLowerCase (casing w) dn) (displayName s)
                        && not_excluded id s) (sites w)))
    /\ m = Z.of_nat (length (List.filter
              (fun s => String.eqb (hostname s) (toLowerCase (casing w) hn)
                        && not_excluded id s) (sites w)))
    /\ (lawful_on_plain (casing w) -> plain dn = true -> plain_names (sites w) ->
        n = Z.of_nat (length (List.filter
              (fun s => same_up_to_case (displayName s) dn && not_excluded id s) (sites w))))
    /\ (lawful_on_plain (casing w) -> plain hn = true ->
        m = Z.of_nat (length (List.filter
              (fun s => String.eqb (hostname s) (fold_case hn) && not_excluded id s) (sites w)))
        /\ same_up_to_case (fold_case hn) hn = true
        /\ no_capital (fold_case hn) = true)
    /\ (forall s i, id = Some i -> i <> "" -> _id s = Some i -> not_excluded id s = false)
    /\ (forall s, id = None \/ id = Some "" -> not_excluded id s = true)
    /\ read_only w w2.
Proof.
  intros F.
  exists (displayName_count (casing w) dn id (sites w)),
         (hostname_count (casing w) hn id (sites w)).
  eexists. eexists. eexists.
  split; [now apply counts_ok|]. split; [now apply taken_ok|].
  split; [|split; [reflexivity|split; [reflexivity|split; [|split; [|split; [|split]]]]]].
  - pose proof (count_nonneg (List.filter
      (fun s => test_anchored_i (casing w) (toLowerCase (casing w) dn) (displayName s)
                && not_excluded id s) (sites w))) as Hn.
    pose proof (count_nonneg (List.filter
      (fun s => String.eqb (hostname s) (toLowerCase (casing w) hn)
                && not_excluded id s) (sites w))) as Hm.
    fold (displayName_count (casing w) dn id (sites w)) in Hn.
    fold (hostname_count (casing w) hn id (sites w)) in Hm.
    destruct (Z.ltb_spec 0 (displayName_count (casing w) dn id (sites w)));
    destruct (Z.ltb_spec 0 (hostname_count (casing w) hn id (sites w)));
      simpl; split; intros; try reflexivity; try discriminate; lia.
  - intros L Hd Hp. unfold displayName_count. f_equal. f_equal.
    apply filter_In_pointwise. intros s Hs.
    rewrite (test_plain (casing w) dn (displayName s) L Hd); [reflexivity|].
    apply Hp. now apply list_elem_of_In.
  - intros L Hh. unfold hostname_count. rewrite (proj1 L hn Hh).
    split; [reflexivity|]. split; [|apply no_capital_fold_case].
    rewrite same_up_to_case_folded. apply same_up_to_case_iff. reflexivity.
  - intros s i -> Hi E. unfold not_excluded.
    apply String.eqb_neq in Hi. rewrite Hi. simpl.
    apply negb_false_iff. now apply bool_decide_eq_true.
  - intros s [-> | ->]; reflexivity.
  - rewrite counts_ok by assumption. repeat split.
    eexists. split; [cbn; rewrite <- app_assoc; reflexivity | repeat constructor].
Qed.

Example validator_ignores_case :
  fst (isDisplayNameOrHostnameTaken "ACME" "new.example.com" None example_world)
    = (None, FlagInt 1).
Proof. reflexivity. Qed.

Example validator_excludes_id :
  fst (isDisplayNameOrHostnameTaken "ACME" "new.example.com" (Some "5f1") example_world)
    = (None, FlagInt 0).
Proof. reflexivity. Qed.

Example validator_whole_name :
  fst (isDisplayNameOrHostnameTaken "Acme Corp" "new.example.com" None example_world)
    = (None, FlagInt 0).
Proof. reflexivity. Qed.

(** Beyond ASCII the counts are what the platform makes of the letters.
    On one that knows the accented letters, 'CAFÉ' finds the stored
    'Café'; the stored hostname 'École.example.com' is not found by
    asking for it, as it is compared with 'école.example.com'. *)
Example validator_on_accents :
  fst (getExistingDisplayNameHostnameCounts "CAFÉ" "École.example.com" None latin_world)
    = (None, [("displayName", Some 1%Z); ("hostname", Some 0%Z)])
  /\ toLowerCase (casing latin_world) "École.example.com" = "école.example.com"
  /\ plain "CAFÉ" = false.
Proof. repeat split. Qed.

Lemma example_world_plain_names : plain_names (sites example_world).
Proof.
  intros s Hs. apply elem_of_cons in Hs as [-> | Hs]; [reflexivity|].
  apply list_elem_of_singleton in Hs as ->. reflexivity.
Qed.

Lemma isDisplayNameOrHostnameTaken_example :
  exists (n m : Z) (taken : Flag) (w1 w2 : World),
    getExistingDisplayNameHostnameCounts "ACME" "Beta.Example.com" (Some "5f2") example_world =
      ((None, [("displayName", Some n); ("hostname", Some m)]), w1)
    /\ isDisplayNameOrHostnameTaken "ACME" "Beta.Example.com" (Some "5f2") example_world
       = ((None, taken), w2)
    /\ (flag_truthy taken = true <-> n <> 0%Z \/ m <> 0%Z)
    /\ n = Z.of_nat (length (List.filter
              (fun s => same_up_to_case (displayName s) "ACME"
                        && not_excluded (Some "5f2") s) (sites example_world)))
    /\ m = Z.of_nat (length (List.filter
              (fun s => String.eqb (hostname s) "beta.example.com"
                        && not_excluded (Some "5f2") s) (sites example_world)))
    /\ n = 1%Z /\ m = 0%Z
    /\ read_only example_world w2.
Proof.
  destruct (isDisplayNameOrHostnameTaken_counts "ACME" "Beta.Example.com" (Some "5f2")
              example_world eq_refl)
    as (n & m & taken & w1 & w2 & H1 & H2 & H3 & _ & _ & Hn & Hm & _ & _ & R).
  specialize (Hn ascii_casing_lawful eq_refl example_world_plain_names).
  destruct (Hm ascii_casing_lawful eq_refl) as [Hm' _].
  exists n, m, taken, w1, w2.
  split; [exact H1|]. split; [exact H2|]. split; [exact H3|].
  split; [exact Hn|]. split; [exact Hm'|].
  split; [exact Hn|]. split; [exact Hm'|]. exact R.
Defined.

(** ** [createSite] *)

Lemma count_pos {A} (f : A -> bool) (l : list A) (x : A) :
  x ∈ l -> f x = true -> (0 <? Z.of_nat (length (List.filter f l)))%Z = true.
Proof.
  intros Hx Hf. apply Z.ltb_lt.
  assert (In x (List.filter f l)) as H.
  { apply filter_In. split; [now apply list_elem_of_In | assumption]. }
  destruct (List.filter f l); [destruct H | simpl; lia].
Qed.

Lemma uniqueId_eq (w : World) :
  uniqueId w = ("uid-" +:+ decimal (id_counter w), snd (next_counter w)).
Proof. reflexivity. Qed.

(** What the validator does catch: a display name that the expression
    made of the input's matches (on printable ASCII: one that differs
    by case only), and a hostname stored exactly as the lower-cased
    input. The site is then reported taken and the store is sent no
    write. *)
Lemma createSite_rejects_collision (site : Site) (id : option string) (w : World) (s : Site) :
  dao_fault w = None ->
  s ∈ sites w ->
  not_excluded id s = true ->
  test_anchored_i (casing w) (toLowerCase (casing w) (displayName site)) (displayName s) = true
    \/ hostname s = toLowerCase (casing w) (hostname site) ->
  fst (createSite site id w) =
    {| cr_err := None; cr_isTaken := FlagInt 1; cr_field := Undefined; cr_result := None |}
  /\ read_only w (snd (createSite site id w)).
Proof.
  intros F Hs Hx Hc.
  unfold createSite, bind, getUid. rewrite uniqueId_eq.
  pose (w1 := snd (next_counter w)). fold w1.
  assert (F1 : dao_fault w1 = None) by exact F.
  rewrite (taken_ok _ _ id w1 F1).
  rewrite (counts_ok _ _ id w1 F1). cbn [fst snd].
  change (sites w1) with (sites w).
  change (displayName (set_uid _ (set_active false site))) with (displayName site).
  change (hostname (set_uid _ (set_active false site))) with (hostname site).
  change (casing w1) with (casing w).
  assert (T : (0 <? displayName_count (casing w) (displayName site) id (sites w))%Z
              || (0 <? hostname_count (casing w) (hostname site) id (sites w))%Z = true).
  { apply orb_true_iff. destruct Hc as [Hc|Hc]; [left|right].
    - apply (count_pos _ _ s Hs). rewrite Hc. exact Hx.
    - apply (count_pos _ _ s Hs). rewrite Hc, String.eqb_refl. exact Hx. }
  rewrite T. simpl. split; [reflexivity|].
  repeat split. eexists.
  split; [unfold after_op, w1; cbn; rewrite <- app_assoc; reflexivity | repeat constructor].
Qed.

(** C4. On an empty store [createSite] saves a site whose hostname is
    'Acme.Example.com', and then saves a second site with the very same
    hostname: the validator looks for 'acme.example.com', finds no
    document, reports nothing taken, and the store ends with two
    documents of one hostname after two writes. *)
Theorem createSite_misses_hostname_collision :
  let first := mkSite None "" "Acme" "Acme.Example.com" true in
  let second := mkSite None "" "Other" "Acme.Example.com" true in
  let w1 := snd (createSite first None (world_of example_config [])) in
  let r2 := createSite second None w1 in
  map hostname (sites w1) = ["Acme.Example.com"]
  /\ fst r2 =
     {| cr_err := None; cr_isTaken := FlagBool false; cr_field := Null;
        cr_result := Some (mkSite (Some "oid-3") "uid-2" "Other" "Acme.Example.com" false) |}
  /\ map hostname (sites (snd r2)) = ["Acme.Example.com"; "Acme.Example.com"]
  /\ List.filter is_write (dao_log (snd r2)) =
     [OpSave (mkSite None "uid-0" "Acme" "Acme.Example.com" false);
      OpSave (mkSite None "uid-2" "Other" "Acme.Example.com" false)].
Proof. repeat split. Qed.

Example createSite_catches_displayName :
  fst (createSite (mkSite None "" "ACME" "new.example.com" true) None example_world) =
  {| cr_err := None; cr_isTaken := FlagInt 1; cr_field := Undefined; cr_result := None |}.
Proof. reflexivity. Qed.

(** ** Activation *)

Lemma record_of_store (u i : string) (s s' : Site) (l : list Site) :
  record_of u l = Some s -> _id s = Some i -> uid s' = u ->
  record_of u (store i s' l) = Some s'.
Proof.
  unfold record_of. intros H Hi Hu. induction l as [|d l IH]; simpl in *; [discriminate|].
  assert (Hs' : String.eqb (uid s') u = true) by now apply String.eqb_eq.
  destruct (String.eqb (uid d) u) eqn:E.
  - injection H as ->. rewrite bool_decide_eq_true_2 by assumption. simpl. now rewrite Hs'.
  - case_bool_decide; simpl.
    + now rewrite Hs'.
    + rewrite E. now apply IH.
Qed.

Lemma store_idem (i : string) (s' : Site) (l : list Site) :
  _id s' = Some i -> store i s' (store i s' l) = store i s' l.
Proof.
  intros Hi. induction l as [|d l IH]; simpl.
  - now rewrite bool_decide_eq_true_2.
  - case_bool_decide as E; simpl.
    + now rewrite bool_decide_eq_true_2.
    + rewrite bool_decide_eq_false_2 by assumption. now rewrite IH.
Qed.

Lemma routing_table_snoc (calls : list RouteCall) (c : RouteCall) :
  routing_table (calls ++ [c]) = apply_route (routing_table calls) c.
Proof. unfold routing_table. now rewrite foldl_app. Qed.

(** The run of a job on a uid whose record is found. *)
Lemma job_run_found (j : Job) (w : World) (s : Site) (i : string) :
  dao_fault w = None ->
  record_of (job_site j) (sites w) = Some s ->
  _id s = Some i ->
  fst (job_run j w) = (None, Some (set_active (target_state (job_kind j)) s))
  /\ sites (snd (job_run j w)) = store i (set_active (target_state (job_kind j)) s) (sites w)
  /\ route_calls (snd (job_run j w)) =
     route_calls w ++ [match job_kind j with
                       | SiteActivateJob => ActivateSite (set_active true s)
                       | SiteDeactivateJob => DeactivateSite (set_active false s)
                       end]
  /\ dao_fault (snd (job_run j w)) = None
  /\ jobs_run (snd (job_run j w)) = jobs_run w ++ [j].
Proof.
  intros F H Hi. unfold job_run, bind.
  pose (w1 := snd (add_job j w)). change (add_job j w) with (tt, w1).
  assert (F1 : dao_fault w1 = None) by exact F.
  unfold SITE_COLLECTION. rewrite (load_by_uid _ w1 F1).
  change (sites w1) with (sites w). rewrite H.
  unfold dao_save, bind, ask. simpl. rewrite F. simpl. rewrite Hi. simpl.
  destruct (job_kind j), (job_runAsInitiator j); simpl; repeat split.
Qed.

Lemma activateSite_found (siteUid : string) (w : World) (s : Site) (i : string) :
  dao_fault w = None ->
  record_of siteUid (sites w) = Some s ->
  _id s = Some i ->
  snd (fst (activateSite siteUid w)) = (None, Some (set_active true s))
  /\ sites (snd (activateSite siteUid w)) = store i (set_active true s) (sites w)
  /\ route_calls (snd (activateSite siteUid w)) =
     route_calls w ++ [ActivateSite (set_active true s)]
  /\ dao_fault (snd (activateSite siteUid w)) = None.
Proof.
  intros F H Hi.
  unfold activateSite, bind, job_init, bind. rewrite uniqueId_eq. unfold ret.
  pose (w1 := snd (next_counter w)). fold w1.
  set (j := setSite siteUid _).
  destruct (job_run_found j w1 s i F H Hi) as (R & S & C & D & _).
  destruct (job_run j w1) as [out w2]. cbn [fst snd] in *.
  repeat split; assumption.
Qed.

(** C8. For a uid whose persisted record exists (and carries the id the
    store gave it), two runs of [activateSite] in a row both complete
    without error and answer with the record made active; after the
    first run the record of the uid is the active one; the second run
    changes no document and leaves the routing table as the first left
    it, with the one entry of the hostname holding the active record. *)
Theorem activateSite_idempotent (siteUid : string) (w : World) (s : Site) (i : string) :
  dao_fault w = None ->
  record_of siteUid (sites w) = Some s ->
  _id s = Some i ->
  let run1 := activateSite siteUid w in
  let run2 := activateSite siteUid (snd run1) in
  snd (fst run1) = (None, Some (set_active true s))
  /\ snd (fst run2) = (None, Some (set_active true s))
  /\ record_of siteUid (sites (snd run1)) = Some (set_active true s)
  /\ record_of siteUid (sites (snd run2)) = Some (set_active true s)
  /\ sites (snd run2) = sites (snd run1)
  /\ routing_table (route_calls (snd run1)) !! hostname s = Some (set_active true s)
  /\ routing_table (route_calls (snd run2)) = routing_table (route_calls (snd run1)).
Proof.
  intros F H Hi run1 run2.
  destruct (activateSite_found siteUid w s i F H Hi) as (R1 & S1 & C1 & F1).
  fold run1 in R1, S1, C1, F1.
  assert (U : uid (set_active true s) = siteUid) by (apply record_of_some in H; tauto).
  assert (H1 : record_of siteUid (sites (snd run1)) = Some (set_active true s)).
  { rewrite S1. now apply (record_of_store siteUid i s). }
  destruct (activateSite_found siteUid (snd run1) (set_active true s) i F1 H1 Hi)
    as (R2 & S2 & C2 & _).
  fold run2 in R2, S2, C2.
  change (set_active true (set_active true s)) with (set_active true s) in *.
  assert (S21 : sites (snd run2) = sites (snd run1)).
  { rewrite S2, S1. now apply store_idem. }
  repeat split; try assumption.
  - now rewrite S21.
  - rewrite C1, routing_table_snoc. simpl. apply lookup_insert_eq.
  - rewrite C2, routing_table_snoc. rewrite C1, routing_table_snoc. simpl.
    apply insert_insert_eq.
Qed.

Lemma activateSite_idempotent_example :
  let run1 := activateSite "beta" example_world in
  let run2 := activateSite "beta" (snd run1) in
  snd (fst run1) = (None, Some (set_active true beta))
  /\ snd (fst run2) = (None, Some (set_active true beta))
  /\ record_of "beta" (sites (snd run1)) = Some (set_active true beta)
  /\ record_of "beta" (sites (snd run2)) = Some (set_active true beta)
  /\ sites (snd run2) = sites (snd run1)
  /\ routing_table (route_calls (snd run1)) !! hostname beta = Some (set_active true beta)
  /\ routing_table (route_calls (snd run2)) = routing_table (route_calls (snd run1)).
Proof.
  apply (activateSite_idempotent "beta" example_world beta "5f2"); reflexivity.
Defined.

(** ** Command handlers *)

Lemma init_registers (w : World) :
  handlers (snd (init w)) =
  handlers w ++ [("deactivate_site", Ref_onActivateSiteCommandReceived);
                 ("activate_site", Ref_onDeactivateSiteCommandReceived)].
Proof. unfold init, registerForType, bind. simpl. now rewrite <- app_assoc. Qed.

Lemma job_run_logged (j : Job) (w : World) :
  jobs_run (snd (job_run j w)) = jobs_run w ++ [j].
Proof.
  unfold job_run, bind, dao_loadByValue, dao_loadByValues, dao_request, dao_save, bind, ask, ret.
  simpl. destruct (dao_fault w); simpl; [reflexivity|].
  destruct (List.find _ _) as [d|]; simpl; [|reflexivity].
  destruct (_id d); simpl; destruct (job_kind j), (job_runAsInitiator j); reflexivity.
Qed.

(** Each handler runs the job its name says, with the id and the site
    of the command and not as the initiator. *)
Lemma onActivateSiteCommandReceived_job (c : Command) (w : World) :
  jobs_run (snd (onActivateSiteCommandReceived (Some c) w)) =
  jobs_run w ++ [mkJob SiteActivateJob false ("ACTIVATE_SITE_" +:+ cmd_site c)
                   (cmd_jobId c) (cmd_site c)].
Proof.
  unfold onActivateSiteCommandReceived, bind, job_init, bind, ret. cbn [fst snd].
  set (j := setSite _ _).
  pose proof (job_run_logged j w) as L. destruct (job_run j w) as [[err result] w1].
  exact L.
Qed.

Lemma onDeactivateSiteCommandReceived_job (c : Command) (w : World) :
  jobs_run (snd (onDeactivateSiteCommandReceived (Some c) w)) =
  jobs_run w ++ [mkJob SiteDeactivateJob false ("DEACTIVATE_SITE_" +:+ cmd_site c)
                   (cmd_jobId c) (cmd_site c)].
Proof.
  unfold onDeactivateSiteCommandReceived, bind, job_init, bind, ret. cbn [fst snd].
  set (j := setSite _ _).
  pose proof (job_run_logged j w) as L. destruct (job_run j w) as [[err result] w1].
  exact L.
Qed.

(** After [init] on a process with no handler yet, a command of either
    type runs the job of the other transition. *)
Lemma init_crosses_handlers (w : World) (site jobId : string) :
  handlers w = [] ->
  jobs_run (snd (deliver (mkCommand "activate_site" site jobId) (snd (init w)))) =
    jobs_run w ++ [mkJob SiteDeactivateJob false ("DEACTIVATE_SITE_" +:+ site) jobId site]
  /\ jobs_run (snd (deliver (mkCommand "deactivate_site" site jobId) (snd (init w)))) =
    jobs_run w ++ [mkJob SiteActivateJob false ("ACTIVATE_SITE_" +:+ site) jobId site].
Proof.
  intros H.
  assert (HA : handlers_for "activate_site" (snd (init w)) = [Ref_onDeactivateSiteCommandReceived]).
  { unfold handlers_for. rewrite init_registers, H. reflexivity. }
  assert (HD : handlers_for "deactivate_site" (snd (init w)) = [Ref_onActivateSiteCommandReceived]).
  { unfold handlers_for. rewrite init_registers, H. reflexivity. }
  split; unfold deliver, bind, ask; cbn [cmd_type]; rewrite ?HA, ?HD; cbn [forEach run_handler]; unfold bind, ret.
  - pose proof (onDeactivateSiteCommandReceived_job (mkCommand "activate_site" site jobId)
                  (snd (init w))) as L.
    destruct (onDeactivateSiteCommandReceived _ _) as [[] w1]. cbn [fst snd] in *. exact L.
  - pose proof (onActivateSiteCommandReceived_job (mkCommand "deactivate_site" site jobId)
                  (snd (init w))) as L.
    destruct (onActivateSiteCommandReceived _ _) as [[] w1]. cbn [fst snd] in *. exact L.
Qed.

(** C1. After [SiteService.init], the handler registered for the type
    'activate_site' is [onDeactivateSiteCommandReceived] and the one for
    'deactivate_site' is [onActivateSiteCommandReceived]. The command
    {type: 'activate_site', site: 'beta', jobId: 'j1'} therefore runs a
    SiteDeactivateJob (not as initiator, with the id 'j1'): the inactive
    site 'beta' stays inactive and the registry is told to deactivate
    it. The command {type: 'deactivate_site', site: 'acme', jobId: 'j2'}
    runs a SiteActivateJob and the active site 'acme' stays active. *)
Theorem init_registers_handlers_crosswise :
  let w := snd (init example_world) in
  let activate := {| cmd_type := "activate_site"; cmd_site := "beta"; cmd_jobId := "j1" |} in
  let deactivate := {| cmd_type := "deactivate_site"; cmd_site := "acme"; cmd_jobId := "j2" |} in
  handlers_for "activate_site" w = [Ref_onDeactivateSiteCommandReceived]
  /\ handlers_for "deactivate_site" w = [Ref_onActivateSiteCommandReceived]
  /\ jobs_run (snd (deliver activate w)) =
     [mkJob SiteDeactivateJob false "DEACTIVATE_SITE_beta" "j1" "beta"]
  /\ record_of "beta" (sites (snd (deliver activate w))) = Some beta
  /\ route_calls (snd (deliver activate w)) = [DeactivateSite beta]
  /\ responses (snd (deliver activate w)) =
     [(activate, {| resp_error := None; resp_result := true |})]
  /\ jobs_run (snd (deliver deactivate w)) =
     [mkJob SiteActivateJob false "ACTIVATE_SITE_acme" "j2" "acme"]
  /\ record_of "acme" (sites (snd (deliver deactivate w))) = Some acme
  /\ route_calls (snd (deliver deactivate w)) = [ActivateSite acme].
Proof. repeat split. Qed.

(** * Further properties of the service *)

(** ** Traffic switches *)

Lemma load_by_uid_failed (u : string) (w : World) (e : Error) :
  dao_fault w = Some e ->
  dao_loadByValue F_uid (Str u) "site" w =
  (Failed e, after_op (OpLoad "site" [(F_uid, Is (Str u))]) w).
Proof.
  intros H. unfold dao_loadByValue, dao_loadByValues.
  now rewrite (dao_request_failed _ _ _ e H).
Qed.

(** X1. With the store answering, [stopAcceptingSiteTraffic] calls back
    with 'Site not found' when no document carries the uid and with
    'Site not deactivated' when the record of the uid is still active;
    in both cases no document changes, the Routing Registry is not
    called and the store is sent no write. *)
Theorem stopAcceptingSiteTraffic_rejects (siteUid : string) (w : World) :
  dao_fault w = None ->
  ((forall s, s ∈ sites w -> uid s <> siteUid) ->
     fst (stopAcceptingSiteTraffic siteUid w) = CalledBack (Some (Err "Site not found"), Null)
     /\ read_only w (snd (stopAcceptingSiteTraffic siteUid w)))
  /\ (forall s, record_of siteUid (sites w) = Some s -> active s = true ->
     fst (stopAcceptingSiteTraffic siteUid w) =
       CalledBack (Some (Err "Site not deactivated"), Null)
     /\ read_only w (snd (stopAcceptingSiteTraffic siteUid w))).
Proof.
  intros F. split.
  - intros H. apply record_of_none in H.
    unfold stopAcceptingSiteTraffic, bind. rewrite load_by_uid by assumption.
    rewrite H. split; [reflexivity | apply after_load_read_only].
  - intros s H A.
    unfold stopAcceptingSiteTraffic, bind. rewrite load_by_uid by assumption.
    rewrite H, A. split; [reflexivity | apply after_load_read_only].
Qed.

Lemma stopAcceptingSiteTraffic_rejects_examples :
  fst (stopAcceptingSiteTraffic "nobody" example_world) =
    CalledBack (Some (Err "Site not found"), Null)
  /\ fst (stopAcceptingSiteTraffic "acme" example_world) =
    CalledBack (Some (Err "Site not deactivated"), Null).
Proof.
  pose proof (stopAcceptingSiteTraffic_rejects "nobody" example_world eq_refl) as [N _].
  pose proof (stopAcceptingSiteTraffic_rejects "acme" example_world eq_refl) as [_ A].
  split.
  - apply N. intros s Hs. unfold example_world, world_of in Hs. simpl in Hs.
    rewrite !elem_of_cons, elem_of_nil in Hs.
    destruct Hs as [->|[->|[]]]; discriminate.
  - apply (A acme); reflexivity.
Defined.

(** X2. With the store answering, for a uid whose record exists exactly
    one of the two switches gets past its precondition: on an active
    record [startAcceptingSiteTraffic] tells the registry to activate
    the loaded record and [stopAcceptingSiteTraffic] refuses; on an
    inactive record the stop tells the registry to deactivate it and
    the start refuses. Neither changes a document. The switch that
    reaches the registry then reads the free identifier [result]: it
    calls back with no error and the value of that global, or raises a
    ReferenceError when there is none. *)
Theorem traffic_switches_complementary (siteUid : string) (w : World) (s : Site) :
  dao_fault w = None ->
  record_of siteUid (sites w) = Some s ->
  sites (snd (startAcceptingSiteTraffic siteUid w)) = sites w
  /\ sites (snd (stopAcceptingSiteTraffic siteUid w)) = sites w
  /\ (active s = true ->
      route_calls (snd (startAcceptingSiteTraffic siteUid w)) = route_calls w ++ [ActivateSite s]
      /\ fst (startAcceptingSiteTraffic siteUid w) = result_read w
      /\ route_calls (snd (stopAcceptingSiteTraffic siteUid w)) = route_calls w
      /\ fst (stopAcceptingSiteTraffic siteUid w) =
           CalledBack (Some (Err "Site not deactivated"), Null))
  /\ (active s = false ->
      route_calls (snd (stopAcceptingSiteTraffic siteUid w)) = route_calls w ++ [DeactivateSite s]
      /\ fst (stopAcceptingSiteTraffic siteUid w) = result_read w
      /\ route_calls (snd (startAcceptingSiteTraffic siteUid w)) = route_calls w
      /\ fst (startAcceptingSiteTraffic siteUid w) =
           CalledBack (Some (Err "Site not active"), Null)).
Proof.
  intros F H.
  unfold startAcceptingSiteTraffic, stopAcceptingSiteTraffic, bind.
  rewrite !load_by_uid by assumption. rewrite H. unfold result_read, read_global.
  destruct (active s); simpl;
    destruct (List.find _ (globals w)); simpl; repeat split; intros; try discriminate;
    repeat split.
Qed.

Lemma traffic_switches_complementary_example :
  sites (snd (startAcceptingSiteTraffic "beta" example_world)) = sites example_world
  /\ sites (snd (stopAcceptingSiteTraffic "beta" example_world)) = sites example_world
  /\ (active beta = true ->
      route_calls (snd (startAcceptingSiteTraffic "beta" example_world)) =
        route_calls example_world ++ [ActivateSite beta]
      /\ fst (startAcceptingSiteTraffic "beta" example_world) = result_read example_world
      /\ route_calls (snd (stopAcceptingSiteTraffic "beta" example_world)) =
           route_calls example_world
      /\ fst (stopAcceptingSiteTraffic "beta" example_world) =
           CalledBack (Some (Err "Site not deactivated"), Null))
  /\ (active beta = false ->
      route_calls (snd (stopAcceptingSiteTraffic "beta" example_world)) =
        route_calls example_world ++ [DeactivateSite beta]
      /\ fst (stopAcceptingSiteTraffic "beta" example_world) = result_read example_world
      /\ route_calls (snd (startAcceptingSiteTraffic "beta" example_world)) =
           route_calls example_world
      /\ fst (startAcceptingSiteTraffic "beta" example_world) =
           CalledBack (Some (Err "Site not active"), Null)).
Proof. apply (traffic_switches_complementary "beta" example_world beta); reflexivity. Defined.

(** X3. When the store fails with an error, both switches hand that
    very error to the callback, with null as the second argument; the
    Routing Registry is not called and no document changes. *)
Theorem traffic_switches_pass_store_error (siteUid : string) (w : World) (e : Error) :
  dao_fault w = Some e ->
  fst (startAcceptingSiteTraffic siteUid w) = CalledBack (Some e, Null)
  /\ read_only w (snd (startAcceptingSiteTraffic siteUid w))
  /\ fst (stopAcceptingSiteTraffic siteUid w) = CalledBack (Some e, Null)
  /\ read_only w (snd (stopAcceptingSiteTraffic siteUid w)).
Proof.
  intros F. unfold startAcceptingSiteTraffic, stopAcceptingSiteTraffic, bind.
  rewrite !(load_by_uid_failed _ _ e F).
  repeat split; try apply after_load_read_only.
Qed.

Lemma traffic_switches_pass_store_error_example :
  fst (startAcceptingSiteTraffic "acme" failing_world) =
    CalledBack (Some (Err "connection lost"), Null)
  /\ read_only failing_world (snd (startAcceptingSiteTraffic "acme" failing_world))
  /\ fst (stopAcceptingSiteTraffic "acme" failing_world) =
    CalledBack (Some (Err "connection lost"), Null)
  /\ read_only failing_world (snd (stopAcceptingSiteTraffic "acme" failing_world)).
Proof.
  apply (traffic_switches_pass_store_error "acme" failing_world (Err "connection lost")).
  reflexivity.
Defined.

(** ** Reads that fail or find nothing *)

Lemma after_read_read_only (op : DaoOp) (w : World) :
  is_write op = false -> read_only w (after_op op w).
Proof.
  intros H. repeat split. exists [op]. split; [reflexivity|].
  constructor; [assumption | constructor].
Qed.

(** X4. When the configuration passes the start-up check but the store
    fails, [initSites] calls back with the store's error alone and
    registers nothing, not even the entry of the global site. *)
Theorem initSites_passes_store_error (url_host : string -> string) (w : World) (e : Error) :
  ~ (multisite_enabled (config w) = true /\ no_global_hostname (config w)) ->
  dao_fault w = Some e ->
  fst (initSites url_host w) = (Some e, None)
  /\ route_calls (snd (initSites url_host w)) = route_calls w
  /\ read_only w (snd (initSites url_host w)).
Proof.
  intros C F.
  assert (Q : getAllSites w = (Failed e, after_op (OpQuery "site" []) w)).
  { unfold getAllSites, dao_q, SITE_COLL. now rewrite (dao_request_failed _ _ _ e F). }
  unfold initSites, bind, ask. cbn [fst snd].
  destruct (multisite_enabled (config w)) eqn:E;
    [destruct (configured (multisite_globalRoot (config w))) as [g|] eqn:G|].
  - rewrite Q. repeat split. now apply after_read_read_only.
  - exfalso. apply C. split; [reflexivity|]. now apply configured_none.
  - rewrite Q. repeat split. now apply after_read_read_only.
Qed.

Lemma initSites_passes_store_error_example :
  fst (initSites example_host failing_world) = (Some (Err "connection lost"), None)
  /\ route_calls (snd (initSites example_host failing_world)) = route_calls failing_world
  /\ read_only failing_world (snd (initSites example_host failing_world)).
Proof.
  apply (initSites_passes_store_error example_host failing_world (Err "connection lost"));
    [intros [H _]; discriminate | reflexivity].
Defined.

Lemma head_of_filter {A B} (f : A -> bool) (g : A -> B) (d : B) (l : list A) :
  match List.filter f l with x :: _ => g x | [] => d end
  = match List.find f l with Some x => g x | None => d end.
Proof.
  induction l as [|x l IH]; simpl; [reflexivity|]. destruct (f x); [reflexivity | exact IH].
Qed.

Lemma selects_uid_val {c : Casing} (v : Val) (s : Site) :
  selects c [(F_uid, Is v)] s = bool_decide (Str (uid s) = v).
Proof. unfold selects. simpl. now rewrite andb_true_r. Qed.

(** X5. [getSiteNameByUid] sends one query for [{uid: uid}] whatever the
    uid, the empty and the 'global' one included. With the store
    answering it calls back with the display name of the first document
    that carries the uid; when there is none, with 'global' for an
    empty or 'global' uid and with the empty string for any other.
    When the store fails it logs the error and hands it on. *)
Theorem getSiteNameByUid_answers (v : Val) (w : World) :
  (dao_fault w = None ->
     snd (getSiteNameByUid v w) = after_op (OpQuery "site" [(F_uid, Is v)]) w
     /\ (forall s, List.find (fun s => bool_decide (Str (uid s) = v)) (sites w) = Some s ->
         fst (getSiteNameByUid v w) = Answer (displayName s))
     /\ (List.find (fun s => bool_decide (Str (uid s) = v)) (sites w) = None ->
         (empty_or_global v -> fst (getSiteNameByUid v w) = Answer "global")
         /\ (~ empty_or_global v -> fst (getSiteNameByUid v w) = Answer "")))
  /\ (forall e, dao_fault w = Some e ->
      fst (getSiteNameByUid v w) = Failed e
      /\ error_log (snd (getSiteNameByUid v w)) = error_log w ++ [stack e]
      /\ dao_log (snd (getSiteNameByUid v w)) = dao_log w ++ [OpQuery "site" [(F_uid, Is v)]]
      /\ sites (snd (getSiteNameByUid v w)) = sites w).
Proof.
  split.
  - intros F. unfold getSiteNameByUid, bind, dao_q, SITE_COLL, SITE_COLLECTION.
    rewrite dao_request_ok by assumption. unfold ret, collection, SITE_COLLECTION.
    cbn [fst snd]. rewrite String.eqb_refl.
    change (sites (after_op (OpQuery "site" [(F_uid, Is v)]) w)) with (sites w).
    rewrite (head_of_filter (selects (casing w) [(F_uid, Is v)]) displayName).
    rewrite (find_ext _ _ (sites w) (selects_uid_val v)).
    split; [reflexivity|]. split.
    + intros s H. now rewrite H.
    + intros H. rewrite H. split; intros G.
      * apply empty_or_global_test in G. now rewrite G.
      * destruct (negb (truthy v) || strict_eq v (Str GLOBAL_SITE)) eqn:T; [|reflexivity].
        exfalso. apply G. now apply empty_or_global_test.
  - intros e F. unfold getSiteNameByUid, bind, dao_q, SITE_COLL, SITE_COLLECTION.
    rewrite (dao_request_failed _ _ _ e F). repeat split.
Qed.

Lemma getSiteNameByUid_examples :
  fst (getSiteNameByUid (Str "beta") example_world) = Answer "Beta"
  /\ fst (getSiteNameByUid Undefined example_world) = Answer "global"
  /\ fst (getSiteNameByUid (Str "nobody") example_world) = Answer ""
  /\ fst (getSiteNameByUid (Str "beta") failing_world) = Failed (Err "connection lost").
Proof.
  pose proof (proj1 (getSiteNameByUid_answers (Str "beta") example_world) eq_refl) as (_ & B & _).
  pose proof (proj1 (getSiteNameByUid_answers Undefined example_world) eq_refl) as (_ & _ & U).
  pose proof (proj1 (getSiteNameByUid_answers (Str "nobody") example_world) eq_refl) as (_ & _ & N).
  pose proof (proj2 (getSiteNameByUid_answers (Str "beta") failing_world)
                (Err "connection lost") eq_refl) as (E & _).
  split; [apply (B beta); reflexivity|].
  split; [apply (proj1 (U eq_refl)); now left|].
  split; [apply (proj2 (N eq_refl)); intros [H|H]; discriminate | exact E].
Defined.

(** X6. With the store answering, [SiteService.siteExists] calls back
    with true exactly when some stored document carries the uid, and
    only reads. The uid 'global' gets no special treatment: it exists
    only if a document carries it. *)
Theorem siteExists_iff (siteUid : string) (w : World) :
  dao_fault w = None ->
  exists b : bool,
    fst (siteExists siteUid w) = Answer b
    /\ (b = true <-> exists s, s ∈ sites w /\ uid s = siteUid)
    /\ (b = true <-> is_Some (record_of siteUid (sites w)))
    /\ read_only w (snd (siteExists siteUid w)).
Proof.
  intros F. exists (existsb (fun s => String.eqb (uid s) siteUid) (sites w)).
  unfold siteExists, dao_exists, SITE_COLL, SITE_COLLECTION.
  rewrite dao_request_ok by assumption.
  cbn [fst snd]. split; [|split; [|split]].
  - unfold collection, SITE_COLLECTION. rewrite String.eqb_refl.
    change (sites (after_op (OpExists "site" [(F_uid, Is (Str siteUid))]) w)) with (sites w).
    f_equal. induction (sites w) as [|d l IH]; [reflexivity|].
    cbn [existsb]. now rewrite selects_uid, IH.
  - rewrite existsb_exists. split.
    + intros (s & Hs & E). exists s. split; [now apply list_elem_of_In | now apply String.eqb_eq].
    + intros (s & Hs & E). exists s. split; [now apply list_elem_of_In | now apply String.eqb_eq].
  - unfold record_of. rewrite existsb_exists. split.
    + intros (s & Hs & E).
      destruct (List.find _ (sites w)) eqn:Fd; [eauto|].
      apply (find_none _ _ Fd) in Hs. congruence.
    + intros [s Hs]. apply find_some in Hs. eauto.
  - now apply after_read_read_only.
Qed.

Lemma siteExists_example :
  exists b : bool,
    fst (siteExists "global" example_world) = Answer b
    /\ (b = true <-> exists s, s ∈ sites example_world /\ uid s = "global")
    /\ (b = true <-> is_Some (record_of "global" (sites example_world)))
    /\ read_only example_world (snd (siteExists "global" example_world)).
Proof. apply (siteExists_iff "global" example_world). reflexivity. Defined.

(** ** The accumulation loop of the validator *)

Lemma flag_truthy_int (f : Flag) : flag_truthy f = negb (flag_int f =? 0)%Z.
Proof. destruct f as [[]|n]; reflexivity. Qed.

Lemma taken_loop_bit (kvs : list (string * option Z)) (acc : Flag) :
  flag_int acc = 0%Z \/ flag_int acc = 1%Z ->
  flag_int (fold_left (fun f kv => flag_or_count f (snd kv)) kvs acc) =
  Z.b2z (negb (flag_int acc =? 0)%Z
         || existsb (fun kv => match snd kv with Some n => (0 <? n)%Z | None => false end) kvs).
Proof.
  revert acc. induction kvs as [|[k c] kvs IH]; intros acc Hacc; simpl.
  - rewrite orb_false_r. destruct Hacc as [-> | ->]; reflexivity.
  - rewrite IH.
    + unfold flag_or_count. simpl.
      destruct Hacc as [-> | ->];
        destruct (match c with Some n => (0 <? n)%Z | None => false end); reflexivity.
    + unfold flag_or_count. simpl.
      destruct Hacc as [-> | ->];
        destruct (match c with Some n => (0 <? n)%Z | None => false end); auto.
Qed.

Lemma taken_loop_int (kvs : list (string * option Z)) (acc : Flag) :
  kvs <> [] ->
  exists n, fold_left (fun f kv => flag_or_count f (snd kv)) kvs acc = FlagInt n.
Proof.
  revert acc. induction kvs as [|kv l IH]; intros acc Hne; [congruence|].
  simpl. destruct l as [|kv' l'].
  - simpl. unfold flag_or_count. eexists. reflexivity.
  - apply IH. discriminate.
Qed.

(** X7. The loop [result |= results[key] > 0] of
    [isDisplayNameOrHostnameTaken], over a results object with any keys:
    the value handed to the callback is truthy exactly when some key
    holds a count above zero (a key without a count does not matter),
    and it is the boolean false for an object without keys and the
    integer 0 or 1 otherwise. *)
Theorem taken_flag_any_positive (kvs : list (string * option Z)) :
  (flag_truthy (taken_flag (Some kvs)) = true <->
   exists k n, (k, Some n) ∈ kvs /\ (0 < n)%Z)
  /\ (kvs = [] -> taken_flag (Some kvs) = FlagBool false)
  /\ (kvs <> [] -> taken_flag (Some kvs) = FlagInt 0 \/ taken_flag (Some kvs) = FlagInt 1).
Proof.
  split; [|split].
  - rewrite flag_truthy_int. unfold taken_flag.
    rewrite taken_loop_bit by (now left). simpl.
    destruct (existsb _ kvs) eqn:E; simpl.
    + split; [intros _|reflexivity].
      apply existsb_exists in E as ([k c] & Hin & Hc). simpl in Hc.
      destruct c as [n|]; [|discriminate].
      exists k, n. split; [now apply list_elem_of_In | now apply Z.ltb_lt].
    + split; [discriminate|]. intros (k & n & Hin & Hn). exfalso.
      assert (existsb (fun kv : string * option Z =>
                match snd kv with Some n => (0 <? n)%Z | None => false end) kvs = true) as T.
      { apply existsb_exists. exists (k, Some n).
        split; [now apply list_elem_of_In | now apply Z.ltb_lt]. }
      congruence.
  - intros ->. reflexivity.
  - intros Hne. unfold taken_flag.
    destruct (taken_loop_int kvs (FlagBool false) Hne) as [n Hn].
    pose proof (taken_loop_bit kvs (FlagBool false) (or_introl eq_refl)) as L.
    rewrite Hn in L |- *. simpl in L. rewrite L.
    destruct (existsb _ kvs); auto.
Qed.

Lemma taken_flag_any_positive_example :
  flag_truthy (taken_flag (Some [("displayName", Some 0%Z); ("hostname", Some 2%Z)])) = true.
Proof.
  apply (proj1 (taken_flag_any_positive [("displayName", Some 0%Z); ("hostname", Some 2%Z)])).
  exists "hostname", 2%Z. split; [|reflexivity]. apply list_elem_of_In. right. now left.
Defined.

(** ** [createSite], further *)

Lemma dao_count_failed (wh : Where) (w : World) (e : Error) :
  dao_fault w = Some e ->
  dao_count "site" wh w = (Failed e, after_op (OpCount "site" wh) w).
Proof. intros F. unfold dao_count. now rewrite (dao_request_failed _ _ _ e F). Qed.

Lemma counts_failed (dn hn : string) (id : option string) (w : World) (e : Error) :
  dao_fault w = Some e ->
  getExistingDisplayNameHostnameCounts dn hn id w =
  ((Some e, [("displayName", None)]), after_validation dn hn id w).
Proof.
  intros F. unfold getExistingDisplayNameHostnameCounts, async_parallel, bind, ask.
  cbn [fst snd].
  rewrite (dao_count_failed _ w e F). cbv beta iota.
  erewrite dao_count_failed by exact F. reflexivity.
Qed.

Lemma after_validation_read_only (dn hn : string) (id : option string) (w w0 : World) :
  sites w = sites w0 -> route_calls w = route_calls w0 -> dao_log w = dao_log w0 ->
  read_only w0 (after_validation dn hn id w).
Proof.
  intros S R L. unfold after_validation. repeat split; try assumption.
  eexists. split; [cbn; rewrite L, <- app_assoc; reflexivity | repeat constructor].
Qed.

Lemma createSite_failed (site : Site) (id : option string) (w : World) (e : Error) :
  dao_fault w = Some e ->
  createSite site id w =
  (mkCreated (Some e) (FlagInt 0) Undefined None,
   after_validation (displayName site) (hostname site) id (snd (next_counter w))).
Proof.
  intros F. unfold createSite, bind, getUid. rewrite uniqueId_eq.
  pose (w1 := snd (next_counter w)). fold w1.
  assert (F1 : dao_fault w1 = Some e) by exact F.
  unfold isDisplayNameOrHostnameTaken, bind.
  rewrite (counts_failed _ _ id w1 e F1). reflexivity.
Qed.

Lemma dao_save_ok (doc : Site) (w : World) :
  dao_fault w = None ->
  exists d w',
    dao_save doc w = (Answer d, w')
    /\ route_calls w' = route_calls w
    /\ dao_log w' = dao_log w ++ [OpSave doc]
    /\ match _id doc with
       | Some i => d = doc /\ sites w' = store i doc (sites w)
       | None => d = set_id ("oid-" +:+ decimal (id_counter w)) doc
                 /\ sites w' = sites w ++ [d]
       end.
Proof.
  intros F. unfold dao_save, bind, ask. simpl. rewrite F. simpl.
  destruct (_id doc) as [i|]; simpl; eexists; eexists; repeat split.
Qed.

Lemma createSite_ok (site : Site) (id : option string) (w : World) :
  dao_fault w = None ->
  createSite site id w =
  let w2 := after_validation (displayName site) (hostname site) id (snd (next_counter w)) in
  if (0 <? displayName_count (casing w) (displayName site) id (sites w))%Z
     || (0 <? hostname_count (casing w) (hostname site) id (sites w))%Z
  then (mkCreated None (FlagInt 1) Undefined None, w2)
  else match dao_save (draft_of site w) w2 with
       | (Failed err, w3) => (mkCreated (Some err) (FlagBool false) Null None, w3)
       | (Answer result, w3) => (mkCreated None (FlagBool false) Null (Some result), w3)
       end.
Proof.
  intros F. unfold createSite, bind, getUid. rewrite uniqueId_eq.
  pose (w1 := snd (next_counter w)). fold w1.
  assert (F1 : dao_fault w1 = None) by exact F.
  rewrite (taken_ok _ _ id w1 F1).
  rewrite (counts_ok _ _ id w1 F1). cbn [fst snd].
  change (sites w1) with (sites w). change (casing w1) with (casing w).
  change (displayName (set_uid _ (set_active false site))) with (displayName site).
  change (hostname (set_uid _ (set_active false site))) with (hostname site).
  destruct ((0 <? displayName_count (casing w) (displayName site) id (sites w))%Z
            || (0 <? hostname_count (casing w) (hostname site) id (sites w))%Z); simpl; [reflexivity|].
  unfold draft_of, after_validation.
  destruct (dao_save _ _) as [[err|result] w3]; reflexivity.
Qed.

Lemma count_pos_iff {A} (f : A -> bool) (l : list A) :
  (0 <? Z.of_nat (length (List.filter f l)))%Z = true <-> exists x, x ∈ l /\ f x = true.
Proof.
  split.
  - intros H. apply Z.ltb_lt in H.
    destruct (List.filter f l) as [|x r] eqn:E; [simpl in H; lia|].
    assert (In x (List.filter f l)) as Hx by (rewrite E; now left).
    apply filter_In in Hx as [Hx Hf]. exists x. split; [now apply list_elem_of_In | assumption].
  - intros (x & Hx & Hf). now apply (count_pos f l x).
Qed.

(** The validator counts something exactly when a stored document
    collides with the site. *)
Lemma counted_iff_collides (c : Casing) (site : Site) (id : option string) (l : list Site) :
  (0 <? displayName_count c (displayName site) id l)%Z
  || (0 <? hostname_count c (hostname site) id l)%Z = true
  <-> exists s, s ∈ l /\ collides c site id s.
Proof.
  unfold displayName_count, hostname_count, collides.
  rewrite orb_true_iff, !count_pos_iff. split.
  - intros [(s & Hs & H)|(s & Hs & H)]; apply andb_true_iff in H as [H X]; exists s.
    + auto.
    + apply String.eqb_eq in H. auto.
  - intros (s & Hs & X & [H|H]); [left|right]; exists s; split; try assumption;
      apply andb_true_iff; split; try assumption. now apply String.eqb_eq.
Qed.

(** On printable ASCII a collision is a display name that is the same
    up to case, or a hostname that is the input's with its capital
    letters made small. *)
Lemma collides_plain_iff (c : Casing) (site : Site) (id : option string) (s : Site) :
  lawful_on_plain c ->
  plain (displayName site) = true -> plain (hostname site) = true ->
  plain (displayName s) = true ->
  collides c site id s <-> collides_plain site id s.
Proof.
  intros L Hd Hh Hs. unfold collides, collides_plain.
  rewrite (test_plain c _ _ L Hd Hs), (proj1 L _ Hh). reflexivity.
Qed.

Lemma store_elem (i : string) (d : Site) (l : list Site) : d ∈ store i d l.
Proof.
  induction l as [|x l IH]; simpl.
  - now left.
  - case_bool_decide; [now left | now right].
Qed.

Lemma store_elem_of (i : string) (d y : Site) (l : list Site) :
  y ∈ store i d l -> y = d \/ y ∈ l.
Proof.
  induction l as [|x l IH]; simpl.
  - rewrite elem_of_cons, elem_of_nil. tauto.
  - case_bool_decide; rewrite !elem_of_cons; intuition.
Qed.

(** X8. Whatever the input, the exclusion id and the state of the
    store, [createSite] never calls the Routing Registry, and it ends in
    one of two ways. Either it hands a stored document to the callback,
    with no error and [isTaken] false: that document is inactive
    whatever the input said, has the display name and hostname of the
    input, carries an id, and is in the store (added at the end when
    the input had no id). Or it hands over no document: then no
    document changed, and the callback got an error or a truthy
    [isTaken]. *)
Theorem createSite_outcome (site : Site) (id : option string) (w : World) :
  route_calls (snd (createSite site id w)) = route_calls w
  /\ match cr_result (fst (createSite site id w)) with
     | Some d =>
         cr_err (fst (createSite site id w)) = None
         /\ cr_isTaken (fst (createSite site id w)) = FlagBool false
         /\ active d = false
         /\ displayName d = displayName site
         /\ hostname d = hostname site
         /\ is_Some (_id d)
         /\ d ∈ sites (snd (createSite site id w))
         /\ (_id site = None -> sites (snd (createSite site id w)) = sites w ++ [d])
     | None =>
         sites (snd (createSite site id w)) = sites w
         /\ (is_Some (cr_err (fst (createSite site id w)))
             \/ flag_truthy (cr_isTaken (fst (createSite site id w))) = true)
     end.
Proof.
  destruct (dao_fault w) as [e|] eqn:F.
  - rewrite (createSite_failed site id w e F). cbn [fst snd cr_result cr_err].
    repeat split. left. eauto.
  - rewrite (createSite_ok site id w F). cbv zeta.
    destruct ((0 <? displayName_count (casing w) (displayName site) id (sites w))%Z
              || (0 <? hostname_count (casing w) (hostname site) id (sites w))%Z) eqn:T.
    + cbn [fst snd cr_result cr_err cr_isTaken]. repeat split. now right.
    + destruct (dao_save_ok (draft_of site w)
                  (after_validation (displayName site) (hostname site) id
                     (snd (next_counter w))) F) as (d & w3 & E & R & _ & S).
      rewrite E. cbn [fst snd cr_result cr_err cr_isTaken].
      split; [exact R|].
      change (_id (draft_of site w)) with (_id site) in S.
      destruct (_id site) as [i|] eqn:I; destruct S as [-> S].
      * repeat split; try reflexivity.
        -- unfold draft_of. simpl. rewrite I. eauto.
        -- rewrite S. apply store_elem.
        -- discriminate.
      * repeat split; try reflexivity.
        -- simpl. eauto.
        -- rewrite S. apply elem_of_app. right. now left.
        -- intros _. exact S.
Qed.

(** X9. With the store answering, [createSite] hands over no document
    exactly when a stored document collides with the input: one that
    the exclusion id leaves in and whose display name matches the
    expression /^name$/i made of the input's display name in lower
    case, or whose hostname is the input's hostname in lower case, both
    as the platform has them. On printable ASCII that is a document
    with the input's display name up to the case of the letters, or
    with the input's hostname, its capital letters made small. When no
    document is handed over, [createSite] reports no error, [isTaken] =
    1 and an undefined field, and sends the store no write. *)
Theorem createSite_rejects_iff_collides (site : Site) (id : option string) (w : World) :
  dao_fault w = None ->
  (cr_result (fst (createSite site id w)) = None
   <-> exists s, s ∈ sites w /\ collides (casing w) site id s)
  /\ (lawful_on_plain (casing w) ->
      plain (displayName site) = true -> plain (hostname site) = true ->
      plain_names (sites w) ->
      (cr_result (fst (createSite site id w)) = None
       <-> exists s, s ∈ sites w /\ collides_plain site id s))
  /\ (cr_result (fst (createSite site id w)) = None ->
      fst (createSite site id w) =
        {| cr_err := None; cr_isTaken := FlagInt 1; cr_field := Undefined; cr_result := None |}
      /\ read_only w (snd (createSite site id w))).
Proof.
  intros F.
  assert (P : lawful_on_plain (casing w) ->
              plain (displayName site) = true -> plain (hostname site) = true ->
              plain_names (sites w) ->
              (exists s, s ∈ sites w /\ collides (casing w) site id s)
              <-> (exists s, s ∈ sites w /\ collides_plain site id s)).
  { intros L Hd Hh Hp. split; intros (s & Hs & C); exists s; (split; [assumption|]);
      now apply (collides_plain_iff (casing w) site id s L Hd Hh (Hp s Hs)). }
  rewrite (createSite_ok site id w F). cbv zeta.
  destruct ((0 <? displayName_count (casing w) (displayName site) id (sites w))%Z
            || (0 <? hostname_count (casing w) (hostname site) id (sites w))%Z) eqn:T.
  - apply counted_iff_collides in T.
    cbn [fst snd cr_result]. split; [tauto|]. split.
    + intros L Hd Hh Hp. split; [intros _|reflexivity]. now apply P.
    + intros _. split; [reflexivity|]. repeat split.
      eexists. split; [cbn; rewrite <- app_assoc; reflexivity | repeat constructor].
  - assert (N : ~ exists s, s ∈ sites w /\ collides (casing w) site id s).
    { intros C. apply counted_iff_collides in C. congruence. }
    destruct (dao_save_ok (draft_of site w)
                (after_validation (displayName site) (hostname site) id
                   (snd (next_counter w))) F) as (d & w3 & E & _).
    rewrite E. cbn [fst snd cr_result]. split; [|split].
    + split; [discriminate | intros C; now destruct N].
    + intros L Hd Hh Hp. split; [discriminate|]. intros C. destruct N. now apply P.
    + discriminate.
Qed.

Lemma createSite_rejects_iff_collides_example :
  (cr_result (fst (createSite (mkSite None "" "ACME" "new.example.com" true) None
                     example_world)) = None
   <-> exists s, s ∈ sites example_world
                 /\ collides_plain (mkSite None "" "ACME" "new.example.com" true) None s)
  /\ (cr_result (fst (createSite (mkSite None "" "ACME" "new.example.com" true) None
                        example_world)) = None ->
      fst (createSite (mkSite None "" "ACME" "new.example.com" true) None example_world) =
        {| cr_err := None; cr_isTaken := FlagInt 1; cr_field := Undefined; cr_result := None |}
      /\ read_only example_world
           (snd (createSite (mkSite None "" "ACME" "new.example.com" true) None example_world))).
Proof.
  destruct (createSite_rejects_iff_collides (mkSite None "" "ACME" "new.example.com" true) None
              example_world eq_refl) as (_ & P & R).
  split; [|exact R].
  exact (P ascii_casing_lawful eq_refl eq_refl example_world_plain_names).
Defined.

Lemma NoDup_keys_store {K} (f : Site -> K) (i : string) (d : Site) (l : list Site) :
  f d ∉ map f l -> NoDup (map f l) -> NoDup (map f (store i d l)).
Proof.
  induction l as [|x l IH]; simpl; intros Hd Hl.
  - apply NoDup_singleton.
  - apply NoDup_cons in Hl as [Hx Hl]. apply not_elem_of_cons in Hd as [Hdx Hd].
    case_bool_decide; simpl; apply NoDup_cons; split; auto.
    intros Hin. apply list_elem_of_fmap in Hin as (y & Ey & Hy).
    apply store_elem_of in Hy as [-> | Hy]; [congruence|].
    apply Hx. rewrite Ey. now apply list_elem_of_fmap_2.
Qed.

Lemma NoDup_keys_snoc {K} (f : Site -> K) (d : Site) (l : list Site) :
  f d ∉ map f l -> NoDup (map f l) -> NoDup (map f (l ++ [d])).
Proof.
  intros Hd Hl. rewrite map_app. apply NoDup_app. split; [assumption|]. split.
  - intros x Hx Hin. simpl in Hin. apply list_elem_of_singleton in Hin. congruence.
  - apply NoDup_singleton.
Qed.

(** What [createSite] without an exclusion id leaves in the store: the
    documents as they were, or the draft saved among them when none of
    them collides with it. *)
Lemma createSite_store (site : Site) (w : World) :
  sites (snd (createSite site None w)) = sites w
  \/ ((forall s, s ∈ sites w ->
         test_anchored_i (casing w) (toLowerCase (casing w) (displayName site))
           (displayName s) = false
         /\ hostname s <> toLowerCase (casing w) (hostname site))
      /\ exists d, displayName d = displayName site /\ hostname d = hostname site
          /\ (sites (snd (createSite site None w)) = sites w ++ [d]
              \/ exists i, sites (snd (createSite site None w)) = store i d (sites w))).
Proof.
  destruct (dao_fault w) as [e|] eqn:F.
  - left. now rewrite (createSite_failed site None w e F).
  - rewrite (createSite_ok site None w F). cbv zeta.
    destruct ((0 <? displayName_count (casing w) (displayName site) None (sites w))%Z
              || (0 <? hostname_count (casing w) (hostname site) None (sites w))%Z) eqn:T;
      [left; reflexivity | right].
    split.
    + intros s Hs. split.
      * destruct (test_anchored_i _ _ _) eqn:E; [exfalso|reflexivity].
        assert (exists s, s ∈ sites w /\ collides (casing w) site None s) as C
          by (exists s; split; [assumption|]; split; [reflexivity|now left]).
        apply counted_iff_collides in C. congruence.
      * intros E.
        assert (exists s, s ∈ sites w /\ collides (casing w) site None s) as C
          by (exists s; split; [assumption|]; split; [reflexivity|now right]).
        apply counted_iff_collides in C. congruence.
    + destruct (dao_save_ok (draft_of site w)
                  (after_validation (displayName site) (hostname site) None
                     (snd (next_counter w))) F) as (d & w3 & E & _ & _ & S).
      rewrite E. cbn [fst snd].
      change (_id (draft_of site w)) with (_id site) in S.
      destruct (_id site) as [i|]; destruct S as [-> S].
      * exists (draft_of site w). repeat split. right. exists i. exact S.
      * eexists. split; [|split; [|left; exact S]]; reflexivity.
Qed.

Lemma displayNames_folded (l : list Site) :
  map fold_case (displayNames l) = map (fun s => fold_case (displayName s)) l.
Proof. unfold displayNames. apply map_map. Qed.

(** X10. [createSite] without an exclusion id keeps display names
    unique up to case on printable ASCII: if the stored display names
    and that of the input are printable ASCII, and no two stored
    documents have the same display name up to the case of the letters
    before the call, then both hold of the stored documents after it,
    whatever else the input says and whether or not the store answers.
    For hostnames the same holds, on every platform, when the input
    hostname is in lower case already, that is when the platform's
    [toLowerCase] leaves it as it is: if the stored hostnames are
    pairwise different before the call they are after it. *)
Theorem createSite_keeps_names_distinct (site : Site) (w : World) :
  (lawful_on_plain (casing w) ->
   plain (displayName site) = true ->
   plain_names (sites w) ->
   unique_up_to_case (displayNames (sites w)) ->
   plain_names (sites (snd (createSite site None w)))
   /\ unique_up_to_case (displayNames (sites (snd (createSite site None w)))))
  /\ (toLowerCase (casing w) (hostname site) = hostname site ->
      NoDup (hostnames (sites w)) ->
      NoDup (hostnames (sites (snd (createSite site None w))))).
Proof.
  unfold hostnames.
  destruct (createSite_store site w) as [-> | (Hfresh & d & Hn & Hh & Hs)]; [tauto|].
  split.
  - intros L Hd Hp Hl. split.
    + intros y Hy. destruct Hs as [E | [i E]]; rewrite E in Hy.
      * apply elem_of_app in Hy as [Hy|Hy]; [now apply Hp|].
        apply list_elem_of_singleton in Hy as ->. now rewrite Hn.
      * apply store_elem_of in Hy as [-> | Hy]; [now rewrite Hn | now apply Hp].
    + apply unique_up_to_case_NoDup. apply unique_up_to_case_NoDup in Hl.
      rewrite displayNames_folded in Hl |- *.
      assert (Hf : fold_case (displayName d)
                   ∉ map (fun s => fold_case (displayName s)) (sites w)).
      { intros Hin. apply list_elem_of_fmap in Hin as (y & Ey & Hy).
        pose proof (proj1 (Hfresh y Hy)) as T.
        rewrite (test_plain (casing w) _ _ L Hd (Hp y Hy)) in T.
        rewrite Hn in Ey. symmetry in Ey. apply same_up_to_case_iff in Ey. congruence. }
      destruct Hs as [-> | [i ->]];
        [now apply NoDup_keys_snoc | now apply NoDup_keys_store].
  - intros Hlow Hl.
    assert (Hf : hostname d ∉ map hostname (sites w)).
    { intros Hin. apply list_elem_of_fmap in Hin as (y & Ey & Hy).
      apply (proj2 (Hfresh y Hy)). congruence. }
    destruct Hs as [-> | [i ->]];
      [now apply NoDup_keys_snoc | now apply NoDup_keys_store].
Qed.

Lemma example_world_unique_names : unique_up_to_case (displayNames (sites example_world)).
Proof.
  apply unique_up_to_case_NoDup. simpl.
  apply NoDup_cons. split; [|apply NoDup_singleton].
  intros Hin. apply list_elem_of_singleton in Hin. discriminate.
Qed.

Lemma createSite_keeps_names_distinct_example :
  (plain_names (sites (snd (createSite (mkSite None "" "Gamma" "gamma.example.com" true)
                              None example_world)))
   /\ unique_up_to_case
        (displayNames (sites (snd (createSite (mkSite None "" "Gamma" "gamma.example.com" true)
                                     None example_world)))))
  /\ NoDup (hostnames (sites (snd (createSite (mkSite None "" "Gamma" "gamma.example.com" true)
                                     None example_world)))).
Proof.
  pose proof (createSite_keeps_names_distinct
                (mkSite None "" "Gamma" "gamma.example.com" true) example_world) as [N H].
  split.
  - apply N; [exact ascii_casing_lawful | reflexivity | exact example_world_plain_names
             | exact example_world_unique_names].
  - apply H; [reflexivity|]. unfold hostnames, example_world, world_of. simpl.
    apply NoDup_cons. split; [|apply NoDup_singleton].
    intros Hin. apply list_elem_of_singleton in Hin. discriminate.
Defined.

Lemma dao_save_fault (doc : Site) (w : World) :
  dao_fault (snd (dao_save doc w)) = dao_fault w.
Proof.
  unfold dao_save, bind, ask. simpl. destruct (dao_fault w) eqn:F; simpl; [reflexivity|].
  destruct (_id doc); simpl; first [reflexivity | exact F].
Qed.

Lemma siteExists_ok (u : string) (w : World) :
  dao_fault w = None ->
  fst (siteExists u w) = Answer (existsb (fun s => String.eqb (uid s) u) (sites w)).
Proof.
  intros F. unfold siteExists, dao_exists, SITE_COLL, SITE_COLLECTION.
  rewrite dao_request_ok by assumption. cbn [fst].
  unfold collection, SITE_COLLECTION. rewrite String.eqb_refl.
  change (sites (after_op (OpExists "site" [(F_uid, Is (Str u))]) w)) with (sites w).
  f_equal. induction (sites w) as [|d l IH]; [reflexivity|].
  cbn [existsb]. now rewrite selects_uid, IH.
Qed.

Lemma getByUid_stored (u : string) (w : World) :
  dao_fault w = None -> u <> "" -> u <> "global" ->
  fst (getByUid (Str u) w) = Answer (Stored (record_of u (sites w))).
Proof.
  intros F Hne Hng. unfold getByUid.
  assert (T : negb (truthy (Str u)) || strict_eq (Str u) (Str GLOBAL_SITE) = false).
  { simpl. apply orb_false_iff. split.
    - apply negb_false_iff, negb_true_iff. now apply String.eqb_neq.
    - now apply String.eqb_neq. }
  rewrite T. unfold bind, dao_loadByValues, SITE_COLL, SITE_COLLECTION.
  rewrite dao_request_ok by assumption. cbn [fst ret].
  unfold collection, SITE_COLLECTION. rewrite String.eqb_refl.
  change (sites (after_op (OpLoad "site" [(F_uid, Is (Str u))]) w)) with (sites w).
  unfold record_of. now rewrite (find_ext _ _ (sites w) (selects_uid u)).
Qed.

Lemma record_of_elem (u : string) (d : Site) (l : list Site) :
  d ∈ l -> uid d = u -> exists s, record_of u l = Some s /\ uid s = u.
Proof.
  intros Hd Hu. destruct (record_of u l) as [s|] eqn:R.
  - exists s. split; [reflexivity|]. now apply record_of_some in R.
  - exfalso. apply (proj1 (record_of_none u l) R d Hd Hu).
Qed.

Lemma record_of_store_fresh (u i : string) (d : Site) (l : list Site) :
  (forall s, s ∈ l -> uid s <> u) -> uid d = u -> record_of u (store i d l) = Some d.
Proof.
  intros Hl Hd. unfold record_of.
  assert (Hq : String.eqb (uid d) u = true) by now apply String.eqb_eq.
  induction l as [|x l IH]; simpl.
  - now rewrite Hq.
  - assert (Hx : String.eqb (uid x) u = false).
    { apply String.eqb_neq. apply Hl. now left. }
    case_bool_decide; simpl.
    + now rewrite Hq.
    + rewrite Hx. apply IH. intros s Hs. apply Hl. now right.
Qed.

Lemma record_of_snoc_fresh (u : string) (d : Site) (l : list Site) :
  (forall s, s ∈ l -> uid s <> u) -> uid d = u -> record_of u (l ++ [d]) = Some d.
Proof.
  intros Hl Hd. unfold record_of.
  assert (Hq : String.eqb (uid d) u = true) by now apply String.eqb_eq.
  induction l as [|x l IH]; simpl.
  - now rewrite Hq.
  - assert (Hx : String.eqb (uid x) u = false).
    { apply String.eqb_neq. apply Hl. now left. }
    rewrite Hx. apply IH. intros s Hs. apply Hl. now right.
Qed.

(** X11. A site that [createSite] handed to the callback can be looked
    up by its uid in the state the call left: [siteExists] answers
    true and [getByUid] answers with a stored document of that uid,
    which is the created one when no document carried the uid before. *)
Theorem createSite_then_lookup (site : Site) (id : option string) (w : World) (d : Site) :
  cr_result (fst (createSite site id w)) = Some d ->
  fst (siteExists (uid d) (snd (createSite site id w))) = Answer true
  /\ (exists s, fst (getByUid (Str (uid d)) (snd (createSite site id w)))
                = Answer (Stored (Some s)) /\ uid s = uid d)
  /\ ((forall s, s ∈ sites w -> uid s <> uid d) ->
      fst (getByUid (Str (uid d)) (snd (createSite site id w))) = Answer (Stored (Some d))).
Proof.
  destruct (dao_fault w) as [e|] eqn:F.
  { rewrite (createSite_failed site id w e F). discriminate. }
  rewrite (createSite_ok site id w F). cbv zeta.
  destruct ((0 <? displayName_count (casing w) (displayName site) id (sites w))%Z
            || (0 <? hostname_count (casing w) (hostname site) id (sites w))%Z); [discriminate|].
  pose proof (dao_save_fault (draft_of site w)
                (after_validation (displayName site) (hostname site) id
                   (snd (next_counter w)))) as F3.
  destruct (dao_save_ok (draft_of site w)
              (after_validation (displayName site) (hostname site) id
                 (snd (next_counter w))) F) as (d' & w3 & E & _ & _ & S).
  rewrite E in F3 |- *. cbn [fst snd cr_result] in *.
  intros [= ->].
  change (dao_fault (after_validation (displayName site) (hostname site) id
                       (snd (next_counter w)))) with (dao_fault w) in F3.
  rewrite F in F3.
  change (sites (after_validation (displayName site) (hostname site) id
                   (snd (next_counter w)))) with (sites w) in S.
  change (_id (draft_of site w)) with (_id site) in S.
  assert (U : uid d = "uid-" +:+ decimal (id_counter w)).
  { destruct (_id site); destruct S as [-> _]; reflexivity. }
  assert (Hin : d ∈ sites w3).
  { destruct (_id site) as [i|]; destruct S as [Ed ->].
    - rewrite Ed. apply store_elem.
    - apply elem_of_app. right. now left. }
  assert (Hne : uid d <> "") by (rewrite U; discriminate).
  assert (Hng : uid d <> "global") by (rewrite U; discriminate).
  rewrite (getByUid_stored (uid d) w3 F3 Hne Hng).
  rewrite (siteExists_ok (uid d) w3 F3).
  split; [|split].
  - f_equal. apply existsb_exists. exists d.
    split; [now apply list_elem_of_In | apply String.eqb_refl].
  - destruct (record_of_elem (uid d) d (sites w3) Hin eq_refl) as (s & -> & Hs). eauto.
  - intros Hfresh. do 2 f_equal.
    destruct (_id site) as [i|]; destruct S as [Ed ->].
    + rewrite <- Ed. now apply record_of_store_fresh.
    + now apply record_of_snoc_fresh.
Qed.

Lemma createSite_then_lookup_example :
  fst (siteExists "uid-0"
         (snd (createSite (mkSite None "" "Gamma" "gamma.example.com" true) None example_world)))
    = Answer true
  /\ fst (getByUid (Str "uid-0")
            (snd (createSite (mkSite None "" "Gamma" "gamma.example.com" true) None
                    example_world)))
     = Answer (Stored (Some (mkSite (Some "oid-1") "uid-0" "Gamma" "gamma.example.com" false))).
Proof.
  pose proof (createSite_then_lookup (mkSite None "" "Gamma" "gamma.example.com" true) None
                example_world (mkSite (Some "oid-1") "uid-0" "Gamma" "gamma.example.com" false)
                eq_refl) as (E & _ & G).
  split; [exact E|]. apply G.
  intros s Hs. unfold example_world, world_of in Hs. simpl in Hs.
  rewrite !elem_of_cons, elem_of_nil in Hs.
  destruct Hs as [->|[->|[]]]; discriminate.
Defined.

(** ** Command handlers, further *)

Lemma job_run_quiet (j : Job) (w : World) :
  responses (snd (job_run j w)) = responses w
  /\ error_log (snd (job_run j w)) = error_log w
  /\ (job_runAsInitiator j = false -> broadcasts (snd (job_run j w)) = broadcasts w)
  /\ ((exists e, fst (job_run j w) = (Some e, None))
      \/ (exists r, fst (job_run j w) = (None, Some r))).
Proof.
  unfold job_run, bind, dao_loadByValue, dao_loadByValues, dao_request, dao_save, bind, ask, ret.
  simpl. destruct (dao_fault w); simpl; [repeat split; eauto|].
  destruct (List.find _ _) as [d|]; simpl; [|repeat split; eauto].
  destruct (_id d); simpl; destruct (job_kind j), (job_runAsInitiator j); simpl;
    repeat split; eauto; discriminate.
Qed.

Lemma handler_runs_job (h : Handler) (c : Command) (w : World) :
  exists j,
    job_runAsInitiator j = false
    /\ job_id j = cmd_jobId c
    /\ job_site j = cmd_site c
    /\ run_handler h (Some c) w =
       (let '(err, result) := fst (job_run j w) in
        sendInResponseTo c
          {| resp_error := match err with Some e => Some (stack e) | None => None end;
             resp_result := match result with Some _ => true | None => false end |})
         (snd (job_run j w)).
Proof.
  destruct h; simpl;
    [exists (mkJob SiteActivateJob false ("ACTIVATE_SITE_" +:+ cmd_site c)
               (cmd_jobId c) (cmd_site c))
    |exists (mkJob SiteDeactivateJob false ("DEACTIVATE_SITE_" +:+ cmd_site c)
               (cmd_jobId c) (cmd_site c))];
    (split; [reflexivity|split; [reflexivity|split; [reflexivity|]]]);
    unfold onActivateSiteCommandReceived, onDeactivateSiteCommandReceived,
      bind, job_init, bind, ret, new_job, setRunAsInitiator, setSite; cbn [fst snd];
    cbn [job_kind job_runAsInitiator job_name job_id job_site];
    destruct (job_run _ w) as [[err result] w1]; reflexivity.
Qed.

(** X12. What the two command handlers do with a command, whichever of
    them is registered for it. A command that is not an object is
    dropped: one line goes to the error log, no job is run, no response
    is sent, and the store and the Routing Registry are not touched.
    A well-formed command runs exactly one job and sends exactly one
    response, addressed to that command, whose [result] is true exactly
    when it carries no error; the handler broadcasts nothing. *)
Theorem handlers_answer_once (h : Handler) (w : World) :
  (length (error_log (snd (run_handler h None w))) = S (length (error_log w))
   /\ jobs_run (snd (run_handler h None w)) = jobs_run w
   /\ responses (snd (run_handler h None w)) = responses w
   /\ sites (snd (run_handler h None w)) = sites w
   /\ dao_log (snd (run_handler h None w)) = dao_log w
   /\ route_calls (snd (run_handler h None w)) = route_calls w)
  /\ (forall c : Command,
      (exists r, responses (snd (run_handler h (Some c) w)) = responses w ++ [(c, r)]
                 /\ (resp_result r = true <-> resp_error r = None))
      /\ (exists j, jobs_run (snd (run_handler h (Some c) w)) = jobs_run w ++ [j]
                    /\ job_runAsInitiator j = false /\ job_id j = cmd_jobId c)
      /\ broadcasts (snd (run_handler h (Some c) w)) = broadcasts w
      /\ error_log (snd (run_handler h (Some c) w)) = error_log w).
Proof.
  split.
  - destruct h; simpl; rewrite length_app; simpl; repeat split; lia.
  - intros c. destruct (handler_runs_job h c w) as (j & Hi & Hid & _ & E).
    rewrite E. clear E.
    destruct (job_run_quiet j w) as (R & L & B & O).
    pose proof (job_run_logged j w) as J. specialize (B Hi).
    destruct (job_run j w) as [[err result] w1]. cbn [fst snd] in *.
    unfold sendInResponseTo, add_response. cbn [fst snd responses jobs_run broadcasts error_log].
    rewrite R, J, B, L. repeat split; eauto.
    eexists. split; [reflexivity|]. cbn [resp_result resp_error].
    destruct O as [[e [= -> ->]] | [r [= -> ->]]]; split; intros; congruence.
Qed.

(** ** Site identifiers, further *)

Lemma strict_eq_truthy a b : strict_eq a b = true -> truthy a = truthy b.
Proof.
  intros H. destruct (strict_eq_cases a b H) as [->|(s & s' & -> & ->)]; reflexivity.
Qed.

Lemma isGlobal_truthy a : truthy a = true -> isGlobal a = strict_eq a (Str GLOBAL_SITE).
Proof. intros T. unfold isGlobal. now rewrite T. Qed.

Lemma isGlobal_falsy a : truthy a = false -> isGlobal a = true.
Proof. intros T. unfold isGlobal. now rewrite T. Qed.

(** X13. [getCurrentSite] puts a site identifier in a canonical form for
    [areEqual]: its result is never falsy, applying it twice changes
    nothing, it stays in the class of its argument, and two identifiers
    are equal for [areEqual] exactly when their canonical forms are
    strictly equal. [isNotSetOrEqual] holds exactly when the actual
    identifier is falsy or the two canonical forms are strictly equal. *)
Theorem getCurrentSite_canonical (a b : Val) :
  truthy (getCurrentSite a) = true
  /\ getCurrentSite (getCurrentSite a) = getCurrentSite a
  /\ areEqual a (getCurrentSite a) = true
  /\ areEqual a b = strict_eq (getCurrentSite a) (getCurrentSite b)
  /\ isNotSetOrEqual a b = negb (truthy a) || strict_eq (getCurrentSite a) (getCurrentSite b).
Proof.
  assert (T : truthy (getCurrentSite a) = true).
  { unfold getCurrentSite. destruct (truthy a) eqn:Ta; [exact Ta | reflexivity]. }
  assert (E : forall x y, areEqual x y = strict_eq (getCurrentSite x) (getCurrentSite y)).
  { intros x y. unfold areEqual, getCurrentSite.
    destruct (truthy x) eqn:Tx, (truthy y) eqn:Ty.
    - rewrite (isGlobal_truthy x Tx), (isGlobal_truthy y Ty).
      destruct (strict_eq x (Str GLOBAL_SITE)) eqn:Gx, (strict_eq y (Str GLOBAL_SITE)) eqn:Gy;
        simpl; try reflexivity.
      symmetry. apply (strict_eq_trans x (Str GLOBAL_SITE) y Gx).
      now rewrite strict_eq_sym.
    - rewrite (isGlobal_truthy x Tx), (isGlobal_falsy y Ty), andb_true_r.
      destruct (strict_eq x (Str GLOBAL_SITE)) eqn:Gx; [reflexivity|].
      destruct (strict_eq x y) eqn:Exy; [|reflexivity].
      apply strict_eq_truthy in Exy. congruence.
    - rewrite (isGlobal_falsy x Tx), (isGlobal_truthy y Ty), andb_true_l.
      rewrite (strict_eq_sym (Str GLOBAL_SITE) y).
      destruct (strict_eq y (Str GLOBAL_SITE)) eqn:Gy; [reflexivity|].
      destruct (strict_eq x y) eqn:Exy; [|reflexivity].
      apply strict_eq_truthy in Exy. congruence.
    - now rewrite (isGlobal_falsy x Tx), (isGlobal_falsy y Ty). }
  split; [exact T|]. split; [|split; [|split]].
  - unfold getCurrentSite at 1. now rewrite T.
  - rewrite E. assert (I : getCurrentSite (getCurrentSite a) = getCurrentSite a).
    { unfold getCurrentSite at 1. now rewrite T. }
    rewrite I. now apply strict_eq_refl_truthy.
  - apply E.
  - unfold isNotSetOrEqual. now rewrite E.
Qed.

(** X14. [getSiteFromObject] answers 'no-site' for a missing object, a
    value that [areEqual] relates to no global identifier; for an
    object it answers the value of its 'site' property, and undefined
    when the object has none, which [isGlobal] takes for the global
    site. *)
Theorem getSiteFromObject_cases (props : list (string * Val)) (b : Val) :
  getSiteFromObject None = Str "no-site"
  /\ (isGlobal b = true -> areEqual (getSiteFromObject None) b = false)
  /\ ((forall v, (SITE_FIELD, v) ∉ props) ->
      getSiteFromObject (Some props) = Undefined
      /\ isGlobal (getSiteFromObject (Some props)) = true)
  /\ (forall v rest, getSiteFromObject (Some ((SITE_FIELD, v) :: rest)) = v).
Proof.
  split; [reflexivity|]. split; [|split].
  - intros G. unfold areEqual. change (getSiteFromObject None) with (Str "no-site").
    change (isGlobal (Str "no-site")) with false. cbn [andb].
    destruct (strict_eq (Str "no-site") b) eqn:E; [|reflexivity].
    apply strict_eq_isGlobal in E. change (isGlobal (Str "no-site")) with false in E.
    congruence.
  - intros H. unfold getSiteFromObject, property.
    destruct (List.find _ props) as [[k v]|] eqn:F; [|split; reflexivity].
    exfalso. apply find_some in F as [Hin Hk]. simpl in Hk.
    apply String.eqb_eq in Hk. subst k. apply (H v). now apply list_elem_of_In.
  - intros v rest. reflexivity.
Qed.

(** ** Store failures in the validator and in [createSite] *)

(** X15. When the store fails, [isDisplayNameOrHostnameTaken] hands the
    store's error to its callback together with a falsy flag, and
    [createSite] hands the same error on with no document: the site is
    not reported taken, the save is never attempted and no document
    changes. *)
Theorem createSite_passes_store_error
  (site : Site) (id : option string) (w : World) (e : Error) :
  dao_fault w = Some e ->
  (exists taken, fst (isDisplayNameOrHostnameTaken (displayName site) (hostname site) id w)
                 = (Some e, taken) /\ flag_truthy taken = false)
  /\ cr_err (fst (createSite site id w)) = Some e
  /\ cr_result (fst (createSite site id w)) = None
  /\ flag_truthy (cr_isTaken (fst (createSite site id w))) = false
  /\ read_only w (snd (createSite site id w)).
Proof.
  intros F. split.
  - unfold isDisplayNameOrHostnameTaken, bind. rewrite (counts_failed _ _ id w e F).
    eexists. split; reflexivity.
  - rewrite (createSite_failed site id w e F). cbn [fst snd cr_err cr_result cr_isTaken].
    repeat split. now apply after_validation_read_only.
Qed.

Lemma createSite_passes_store_error_example :
  (exists taken, fst (isDisplayNameOrHostnameTaken (displayName acme) (hostname acme) None
                        failing_world)
                 = (Some (Err "connection lost"), taken) /\ flag_truthy taken = false)
  /\ cr_err (fst (createSite acme None failing_world)) = Some (Err "connection lost")
  /\ cr_result (fst (createSite acme None failing_world)) = None
  /\ flag_truthy (cr_isTaken (fst (createSite acme None failing_world))) = false
  /\ read_only failing_world (snd (createSite acme None failing_world)).
Proof.
  apply (createSite_passes_store_error acme None failing_world (Err "connection lost")).
  reflexivity.
Defined.

(** ** The local transitions *)

Lemma job_init_fresh (name : string) (j : Job) (w : World) :
  job_init name None j w =
  (mkJob (job_kind j) (job_runAsInitiator j) name ("uid-" +:+ decimal (id_counter w)) (job_site j),
   snd (next_counter w)).
Proof. reflexivity. Qed.

(** X16. On the local path each call runs the job of its own
    transition: [activateSite] runs exactly one job, a SiteActivateJob
    named ACTIVATE_SITE_<uid> for that uid and marked as initiator, and
    returns the id of that job; [deactivateSite] does the same with a
    SiteDeactivateJob named DEACTIVATE_SITE_<uid>. Neither sends a
    response on the command channel. *)
Theorem local_transitions_run_matching_job (siteUid : string) (w : World) :
  (exists j, jobs_run (snd (activateSite siteUid w)) = jobs_run w ++ [j]
             /\ job_kind j = SiteActivateJob
             /\ job_name j = "ACTIVATE_SITE_" +:+ siteUid
             /\ job_site j = siteUid
             /\ job_runAsInitiator j = true
             /\ fst (fst (activateSite siteUid w)) = job_id j
             /\ responses (snd (activateSite siteUid w)) = responses w)
  /\ (exists j, jobs_run (snd (deactivateSite siteUid w)) = jobs_run w ++ [j]
                /\ job_kind j = SiteDeactivateJob
                /\ job_name j = "DEACTIVATE_SITE_" +:+ siteUid
                /\ job_site j = siteUid
                /\ job_runAsInitiator j = true
                /\ fst (fst (deactivateSite siteUid w)) = job_id j
                /\ responses (snd (deactivateSite siteUid w)) = responses w).
Proof.
  split.
  - unfold activateSite, bind. rewrite job_init_fresh. unfold ret.
    set (j := setSite siteUid _).
    pose proof (job_run_logged j (snd (next_counter w))) as L.
    destruct (job_run_quiet j (snd (next_counter w))) as (R & _).
    destruct (job_run j (snd (next_counter w))) as [out w1]. cbn [fst snd] in *.
    exists j. rewrite L, R. repeat split.
  - unfold deactivateSite, bind. rewrite job_init_fresh. unfold ret.
    set (j := setSite siteUid _).
    pose proof (job_run_logged j (snd (next_counter w))) as L.
    destruct (job_run_quiet j (snd (next_counter w))) as (R & _).
    destruct (job_run j (snd (next_counter w))) as [out w1]. cbn [fst snd] in *.
    exists j. rewrite L, R. repeat split.
Qed.

(** * Properties of the new-article controller *)

Module NewArticleFacts.

Import NewArticle.

Lemma append_nil_r (s : string) : s +:+ "" = s.
Proof.
  induction s as [|c s IH]; [reflexivity|].
  change (String c (s +:+ "") = String c s). now rewrite IH.
Qed.

Lemma append_assoc (a b c : string) : (a +:+ b) +:+ c = a +:+ (b +:+ c).
Proof.
  induction a as [|x a IH]; [reflexivity|].
  change (String x ((a +:+ b) +:+ c) = String x (a +:+ (b +:+ c))). now rewrite IH.
Qed.

Lemma prefix_append (p rest : string) : String.prefix p (p +:+ rest) = true.
Proof.
  induction p as [|a p IH]; simpl; [now destruct rest|].
  destruct (ascii_dec a a); [exact IH | congruence].
Qed.

Lemma prefix_split (p s : string) : String.prefix p s = true -> exists rest, s = p +:+ rest.
Proof.
  revert s. induction p as [|a p IH]; intros s H.
  - exists s. reflexivity.
  - destruct s as [|b s]; simpl in H; [discriminate|].
    destruct (ascii_dec a b) as [->|]; [|discriminate].
    destruct (IH s H) as [rest ->]. exists rest. reflexivity.
Qed.

Lemma index_cons (p : string) (b : ascii) (s : string) :
  index 0 p (String b s) =
  if String.prefix p (String b s) then Some 0
  else match index 0 p s with Some n => Some (S n) | None => None end.
Proof. reflexivity. Qed.

(** The first occurrence of a pattern splits the string around it. *)
Lemma index_split (p s : string) (n : nat) :
  index 0 p s = Some n -> exists rest, s = substring 0 n s +:+ p +:+ rest.
Proof.
  revert n. induction s as [|b s IH]; intros n H.
  - simpl in H. destruct p; [|discriminate]. injection H as <-. exists "". reflexivity.
  - rewrite index_cons in H. destruct (String.prefix p (String b s)) eqn:P.
    + injection H as <-. change (substring 0 0 (String b s)) with "".
      now apply prefix_split.
    + destruct (index 0 p s) as [m|] eqn:I; [|discriminate]. injection H as <-.
      destruct (IH m eq_refl) as [rest E]. exists rest.
      change (substring 0 (S m) (String b s)) with (String b (substring 0 m s)).
      change (String b s = String b (substring 0 m s +:+ p +:+ rest)). now rewrite <- E.
Qed.

Lemma index_found (p a rest : string) : index 0 p (a +:+ p +:+ rest) <> None.
Proof.
  induction a as [|x a IH].
  - change ("" +:+ p +:+ rest) with (p +:+ rest).
    destruct (p +:+ rest) as [|b s] eqn:E.
    + destruct p; [discriminate|]. discriminate.
    + rewrite index_cons, <- E, prefix_append. discriminate.
  - change (String x a +:+ p +:+ rest) with (String x (a +:+ p +:+ rest)).
    rewrite index_cons.
    destruct (String.prefix p (String x (a +:+ p +:+ rest))); [discriminate|].
    destruct (index 0 p (a +:+ p +:+ rest)); [discriminate | congruence].
Qed.

Lemma index_length (p s : string) (n : nat) :
  index 0 p s = Some n -> String.length (substring 0 n s) = n.
Proof.
  revert n. induction s as [|b s IH]; intros n H.
  - simpl in H. destruct p; [|discriminate]. injection H as <-. reflexivity.
  - rewrite index_cons in H. destruct (String.prefix p (String b s)) eqn:P.
    + injection H as <-. reflexivity.
    + destruct (index 0 p s) as [m|] eqn:I; [|discriminate]. injection H as <-.
      change (substring 0 (S m) (String b s)) with (String b (substring 0 m s)).
      simpl. now rewrite (IH m eq_refl).
Qed.

(** No occurrence of the pattern starts before the one found. *)
Lemma index_first (p a rest : string) (n : nat) :
  index 0 p (a +:+ p +:+ rest) = Some n -> (n <= String.length a)%nat.
Proof.
  revert n. induction a as [|x a IH]; intros n H.
  - change ("" +:+ p +:+ rest) with (p +:+ rest) in H.
    destruct (p +:+ rest) as [|b s] eqn:E.
    + simpl in H. destruct p; [|discriminate]. injection H as <-. simpl. lia.
    + rewrite index_cons, <- E, prefix_append in H. injection H as <-. simpl. lia.
  - change (String x a +:+ p +:+ rest) with (String x (a +:+ p +:+ rest)) in H.
    rewrite index_cons in H.
    destruct (String.prefix p (String x (a +:+ p +:+ rest))).
    + injection H as <-. lia.
    + destruct (index 0 p (a +:+ p +:+ rest)) as [m|]; [|discriminate].
      injection H as <-. specialize (IH m eq_refl). simpl. lia.
Qed.

Lemma append_same_length (a b x y : string) :
  a +:+ x = b +:+ y -> String.length a = String.length b -> a = b.
Proof.
  revert b. induction a as [|c a IH]; intros [|d b] E L; try discriminate; [reflexivity|].
  change (String c (a +:+ x) = String d (b +:+ y)) in E.
  injection E as -> E. injection L as L. now rewrite (IH b E L).
Qed.

(** X17. Which directory entries [getTemplateOptions] takes for
    controller files, and under which name: an entry is taken exactly
    when '.js' occurs somewhere in it, and the template name is the part
    of the entry before the first occurrence of '.js'. So the entry is
    that name, then '.js', then whatever follows, and no shorter
    beginning of the entry is followed by '.js'; this says which name
    it is: 'a.js.js' is taken as 'a', not as 'a.js'. The extension need
    not be at the end: 'article.json' is taken as 'article', like
    'article.js'. *)
Theorem templateFile_before_js (entry : string) :
  (forall t, templateFile entry = Some t <->
     (exists rest, entry = t +:+ ".js" +:+ rest)
     /\ (forall t' rest', entry = t' +:+ ".js" +:+ rest' ->
         (String.length t <= String.length t')%nat))
  /\ (is_Some (templateFile entry) <-> exists t rest, entry = t +:+ ".js" +:+ rest)
  /\ templateFile "article.js" = Some "article"
  /\ templateFile "article.json" = Some "article"
  /\ templateFile "a.js.js" = Some "a"
  /\ templateFile "README.md" = None.
Proof.
  assert (First : forall t, templateFile entry = Some t ->
     (exists rest, entry = t +:+ ".js" +:+ rest)
     /\ (forall t' rest', entry = t' +:+ ".js" +:+ rest' ->
         (String.length t <= String.length t')%nat)).
  { unfold templateFile. intros t H.
    destruct (index 0 ".js" entry) as [n|] eqn:I; [|discriminate].
    injection H as <-. split; [now apply index_split|].
    intros t' rest' E. rewrite (index_length _ _ _ I).
    rewrite E in I. exact (index_first _ _ _ _ I). }
  assert (Taken : forall t rest, entry = t +:+ ".js" +:+ rest -> is_Some (templateFile entry)).
  { unfold templateFile. intros t rest ->.
    pose proof (index_found ".js" t rest) as N.
    destruct (index 0 ".js" (t +:+ ".js" +:+ rest)); [eauto | congruence]. }
  split; [|split; [|repeat split]].
  - intros t. split; [apply First|].
    intros [[rest E] Min].
    destruct (Taken t rest E) as [t0 H0]. rewrite H0. f_equal.
    destruct (First t0 H0) as [[rest0 E0] Min0].
    apply (append_same_length t0 t (".js" +:+ rest0) (".js" +:+ rest)); [congruence|].
    pose proof (Min t0 rest0 E0). pose proof (Min0 t rest E). lia.
  - split.
    + intros [t H]. exists t. now apply First.
    + intros (t & rest & E). now apply (Taken t rest).
Qed.

Lemma concat_cons (x : string) (xs : list string) :
  String.concat "" (x :: xs) = x +:+ String.concat "" xs.
Proof. destruct xs; [symmetry; apply append_nil_r | reflexivity]. Qed.

Lemma inner_loop (t : ContentTemplate) (available : list string) (acc : string) :
  fold_left (fun acc a => if String.eqb (file t) a then acc +:+ option_tag t else acc)
    available acc
  = acc +:+ options_of available t.
Proof.
  unfold options_of. revert acc. induction available as [|a l IH]; intros acc.
  - symmetry. apply append_nil_r.
  - cbn [fold_left List.filter]. rewrite IH.
    destruct (String.eqb (file t) a); [|reflexivity].
    cbn [map]. now rewrite concat_cons, append_assoc.
Qed.

Lemma outer_loop (available : list string) (ts : list ContentTemplate) (acc : string) :
  fold_left (fun acc t =>
               fold_left (fun acc a =>
                            if String.eqb (file t) a then acc +:+ option_tag t else acc)
                 available acc) ts acc
  = acc +:+ String.concat "" (map (options_of available) ts).
Proof.
  revert acc. induction ts as [|t ts IH]; intros acc.
  - symmetry. apply append_nil_r.
  - cbn [fold_left map]. now rewrite IH, inner_loop, concat_cons, append_assoc.
Qed.

Lemma availableTemplates_omap (entries : list string) :
  availableTemplates (Some entries) = omap templateFile entries.
Proof.
  unfold availableTemplates.
  assert (G : forall acc,
    fold_left (fun available entry =>
                 match templateFile entry with
                 | Some t => available ++ [t]
                 | None => available
                 end) entries acc = acc ++ omap templateFile entries).
  { induction entries as [|e l IH]; intros acc; simpl.
    - now rewrite app_nil_r.
    - rewrite IH. destruct (templateFile e); simpl; [now rewrite <- app_assoc | reflexivity]. }
  apply G.
Qed.

Lemma options_of_absent (available : list string) (t : ContentTemplate) :
  file t ∉ available -> options_of available t = "".
Proof.
  intros H. unfold options_of.
  assert (E : List.filter (fun a => String.eqb (file t) a) available = []).
  { induction available as [|a l IH]; simpl; [reflexivity|].
    apply not_elem_of_cons in H as [Hne H].
    destruct (String.eqb_spec (file t) a); [congruence | now apply IH]. }
  now rewrite E.
Qed.

(** X18. What [getTemplateOptions] hands to its callback. With no
    active-theme setting, or when details.json cannot be read, the
    empty string. When details.json is read but is not valid JSON,
    nothing: the exception leaves the call. Otherwise the option tags
    of the templates that details.json declares, in the order it
    declares them, each once for every controller entry that gives its
    file name: a declared template without such an entry is left out,
    and when the controllers directory cannot be read the list is
    empty. *)
Theorem getTemplateOptions_lists_declared_controllers (env : Env) :
  (active_theme env = [] -> getTemplateOptions env = Output "")
  /\ (forall theme rest, active_theme env = theme :: rest ->
      let root := DOCUMENT_ROOT env +:+ "/plugins/themes/" +:+ value theme in
      let available :=
        match readdir env (root +:+ "/controllers") with
        | Some entries => omap templateFile entries
        | None => []
        end in
      (readFile env (root +:+ "/details.json") = None -> getTemplateOptions env = Output "")
      /\ (forall data, readFile env (root +:+ "/details.json") = Some data ->
          parse env data = None -> getTemplateOptions env = SyntaxError)
      /\ (forall data details, readFile env (root +:+ "/details.json") = Some data ->
          parse env data = Some details ->
          getTemplateOptions env =
            Output (String.concat "" (map (options_of available) (content_templates details)))
          /\ (forall t, file t ∉ available -> options_of available t = "")
          /\ (readdir env (root +:+ "/controllers") = None -> getTemplateOptions env = Output ""))).
Proof.
  split.
  - intros H. unfold getTemplateOptions. now rewrite H.
  - intros theme rest H root available.
    assert (A : availableTemplates (readdir env (root +:+ "/controllers")) = available).
    { unfold available. destruct (readdir env _); [apply availableTemplates_omap | reflexivity]. }
    unfold getTemplateOptions. rewrite H.
    replace (DOCUMENT_ROOT env +:+ "/plugins/themes/" +:+ value theme +:+ "/controllers")
      with (root +:+ "/controllers") by (unfold root; now rewrite !append_assoc).
    replace (DOCUMENT_ROOT env +:+ "/plugins/themes/" +:+ value theme +:+ "/details.json")
      with (root +:+ "/details.json") by (unfold root; now rewrite !append_assoc).
    cbv zeta. rewrite A. split; [|split].
    + intros R. now rewrite R.
    + intros data R P. now rewrite R, P.
    + intros data details R P. rewrite R, P. split; [|split].
      * unfold templatesList. now rewrite outer_loop.
      * apply options_of_absent.
      * intros D. unfold templatesList. rewrite outer_loop. f_equal.
        unfold available. rewrite D. clear.
        change (String.concat "" (map (options_of []) (content_templates details)) = "").
        induction (content_templates details) as [|t ts IH]; [reflexivity|].
        cbn [map]. rewrite concat_cons, IH. reflexivity.
Qed.

Lemma getTemplateOptions_example :
  getTemplateOptions example_env =
  Output (option_tag (mkContentTemplate "index" "Home")
          +:+ option_tag (mkContentTemplate "article" "Article")).
Proof.
  pose proof (proj2 (getTemplateOptions_lists_declared_controllers example_env)
                (mkSetting "plain") [] eq_refl) as (_ & _ & H).
  destruct (H "details" _ eq_refl eq_refl) as (E & _). rewrite E. reflexivity.
Defined.

End NewArticleFacts.
